(** * Audio analysis web application

    A shallow embedding of the web application of the repository
    ([audio-analysis-webapp/server.js], the results page script and the
    Terraform trigger of the analysis function) together with a model of the
    analysis pipeline's result assembler, followed by the properties the
    specification states about them.

    Conventions.
    - A JavaScript string is a [string]: a sequence of code units, of which
      the model keeps those below 256.
    - A JavaScript number used as an index or a size is a [Z].
    - A call that may throw returns an [Exc]; [try ... catch] is [try_catch]. *)

From Stdlib Require Import ZArith List String Ascii Bool Lia DecimalString.
From Stdlib Require Import Sorting.Permutation Sorting.Sorted.
Import ListNotations.

Open Scope string_scope.
Open Scope Z_scope.

(** ** JavaScript values and built-ins used by the sources *)

Module Js.

(** The outcome of a call: a value, or a thrown [Error] with its message. *)
Inductive Exc (A : Type) : Type :=
| Ok (a : A)
| Throw (message : string).
Arguments Ok {A} a.
Arguments Throw {A} message.

Definition bind {A B : Type} (m : Exc A) (k : A -> Exc B) : Exc B :=
  match m with
  | Ok a => k a
  | Throw e => Throw e
  end.

(** [try { body } catch (error) { handler(error) }] *)
Definition try_catch {A : Type} (body : Exc A) (handler : string -> Exc A) : Exc A :=
  match body with
  | Ok a => Ok a
  | Throw e => handler e
  end.

(** The same, for a handler that only logs and yields a value. *)
Definition try_or {A : Type} (body : Exc A) (handler : string -> A) : A :=
  match body with
  | Ok a => a
  | Throw e => handler e
  end.

(** [value || fallback] on a possibly missing string: the empty string and
    [undefined] are both falsy. *)
Definition truthy (v : option string) : bool :=
  match v with
  | Some s => negb (s =? "")%string
  | None => false
  end.

Definition or_else (v : option string) (fallback : string) : string :=
  match v with
  | Some s => if (s =? "")%string then fallback else s
  | None => fallback
  end.

(** [s.charCodeAt(i)] for [0 <= i < s.length]. *)
Definition charCodeAt (s : string) (i : nat) : Z :=
  match String.get i s with
  | Some c => Z.of_N (N_of_ascii c)
  | None => -1
  end.

(** [s.slice(from, to)] for [0 <= from <= to <= s.length]. *)
Definition slice (s : string) (from to : Z) : string :=
  String.substring (Z.to_nat from) (Z.to_nat (to - from)) s.

Fixpoint map_chars (f : ascii -> ascii) (s : string) : string :=
  match s with
  | EmptyString => EmptyString
  | String c s' => String (f c) (map_chars f s')
  end.

(** The lower-case mapping of one code unit below 256: A-Z, and the
    upper-case letters of Latin-1 (U+00C0 to U+00DE without U+00D7). *)
Definition lower_char (c : ascii) : ascii :=
  let n := Z.of_N (N_of_ascii c) in
  if ((65 <=? n) && (n <=? 90)) || ((192 <=? n) && (n <=? 222) && negb (n =? 215))
  then ascii_of_N (Z.to_N (n + 32))
  else c.

(** [s.toLowerCase()] *)
Definition toLowerCase (s : string) : string := map_chars lower_char s.

(** [s.replace(/c/g, by)] for a pattern that is one literal character. *)
Definition replace_char (c by_ : ascii) (s : string) : string :=
  map_chars (fun x => if Ascii.eqb x c then by_ else x) s.

(** The order of two strings by their code units (the lexicographic order),
    as the sign a comparator returns. *)
Definition code_unit_order (a b : string) : Z :=
  match String.compare a b with
  | Lt => -1
  | Eq => 0
  | Gt => 1
  end.

(** No character of [s] is [c]. *)
Fixpoint free_of (c : ascii) (s : string) : bool :=
  match s with
  | EmptyString => true
  | String x s' => negb (Ascii.eqb x c) && free_of c s'
  end.

(** [list.includes(x)] on strings. *)
Definition includes (l : list string) (x : string) : bool :=
  existsb (String.eqb x) l.

End Js.

(** ** Node's [path.extname] (POSIX flavour), as [server.js] calls it *)

Module NodePath.
Import Js.

Definition CHAR_FORWARD_SLASH : Z := 47.
Definition CHAR_DOT : Z := 46.

(** The local variables of [extname]'s backward scan. *)
Record scan := mkScan {
  startDot : Z;
  startPart : Z;
  end_ : Z;
  matchedSlash : bool;
  preDotState : Z
}.

Definition scan0 : scan := mkScan (-1) 0 (-1) true 0.

(** The loop [for (let i = path.length - 1; i >= 0; --i)]: [n] is [i + 1]. *)
Fixpoint extname_scan (path : string) (n : nat) (st : scan) : scan :=
  match n with
  | O => st
  | S i =>
    let code := charCodeAt path i in
    if code =? CHAR_FORWARD_SLASH then
      if negb (matchedSlash st)
      then mkScan (startDot st) (Z.of_nat i + 1) (end_ st) (matchedSlash st) (preDotState st)
      else extname_scan path i st
    else
      let st1 :=
        if end_ st =? -1
        then mkScan (startDot st) (startPart st) (Z.of_nat i + 1) false (preDotState st)
        else st in
      let st2 :=
        if code =? CHAR_DOT then
          if startDot st1 =? -1
          then mkScan (Z.of_nat i) (startPart st1) (end_ st1) (matchedSlash st1) (preDotState st1)
          else if negb (preDotState st1 =? 1)
          then mkScan (startDot st1) (startPart st1) (end_ st1) (matchedSlash st1) 1
          else st1
        else if negb (startDot st1 =? -1)
        then mkScan (startDot st1) (startPart st1) (end_ st1) (matchedSlash st1) (-1)
        else st1 in
      extname_scan path i st2
  end.

Definition extname (path : string) : string :=
  let st := extname_scan path (String.length path) scan0 in
  if (startDot st =? -1)
     || (end_ st =? -1)
     || (preDotState st =? 0)
     || ((preDotState st =? 1)
         && (startDot st =? end_ st - 1)
         && (startDot st =? startPart st + 1))
  then ""
  else slice path (startDot st) (end_ st).

End NodePath.

(** ** The web server: [audio-analysis-webapp/server.js] *)

Module Server.
Import Js.

Definition ALLOWED_EXTENSIONS : list string :=
  [".mp3"; ".wav"; ".flac"; ".m4a"; ".aac"].

Definition MAX_FILE_SIZE : Z := 50 * 1024 * 1024.

(** The file of a multipart request, as multer hands it to [fileFilter] and,
    once read, to the route handler ([req.file]). *)
Record file := mkFile {
  originalname : string;
  mimetype : string;
  buffer : list Byte.byte
}.

Definition size (f : file) : Z := Z.of_nat (List.length (buffer f)).

(** [fileFilter]: [cb(null, true)] is [Ok true], [cb(new Error(m))] is
    [Throw m]. *)
Definition fileFilter (f : file) : Exc bool :=
  let ext := toLowerCase (NodePath.extname (originalname f)) in
  if includes ALLOWED_EXTENSIONS ext
  then Ok true
  else Throw "File type not allowed. Use MP3, WAV, FLAC, M4A, or AAC".

(** How the multipart parser under multer compares a file with
    [limits.fileSize]: the releases differ on a file of exactly the limit
    ([StrictlyLarger] lets it through, [ReachesLimit] does not). *)
Inductive limit_rule := StrictlyLarger | ReachesLimit.

Definition over_limit (rule : limit_rule) (bytes limit : Z) : bool :=
  match rule with
  | StrictlyLarger => limit <? bytes
  | ReachesLimit => limit <=? bytes
  end.

(** [upload.single("file")] with [limits: { fileSize: MAX_FILE_SIZE }]:
    the filter runs on the file's name before its bytes are read; a file over
    the limit ends the request with multer's [LIMIT_FILE_SIZE] error. *)
Definition upload_single (rule : limit_rule) (part : option file) : Exc (option file) :=
  match part with
  | None => Ok None
  | Some f =>
    bind (fileFilter f) (fun include =>
      if negb include then Ok None
      else if over_limit rule (size f) MAX_FILE_SIZE then Throw "File too large"
      else Ok (Some f))
  end.

(** [filename.replace(/\//g, "_").replace(/\./g, "_")] *)
Definition docId (filename : string) : string :=
  replace_char "." "_" (replace_char "/" "_" filename).

(** What the write stream of the storage object reports. *)
Inductive write_outcome :=
| Finish
| StreamError (message : string)
| WriteThrows (message : string).

(** What a request reads from outside: [Date.now()],
    [Math.random().toString(36).substring(7)], the storage client, and the
    multipart parser in use. *)
Record upload_env := mkUploadEnv {
  now : Z;
  randomString : string;
  write : string -> list Byte.byte -> write_outcome;
  rule : limit_rule
}.

Inductive upload_body :=
| Uploaded (filename message doc_id : string)
| Failed (error : string).

Record upload_response := mkUploadResponse {
  status : Z;
  body : upload_body
}.

(** [res.json(b)] answers with status 200 unless [res.status(n)] came first. *)
Definition json (b : upload_body) : upload_response := mkUploadResponse 200 b.
Definition status_json (n : Z) (b : upload_body) : upload_response := mkUploadResponse n b.

(** The error handling middleware, [app.use((err, req, res, next) => ...)]. *)
Definition error_middleware (message : string) : upload_response :=
  status_json 500 (Failed message).

Definition Z_to_string (z : Z) : string := NilZero.string_of_int (Z.to_int z).

(** [app.post("/upload", upload.single("file"), ...)]: the response, and the
    object written to the bucket, if any. *)
Definition post_upload (env : upload_env) (part : option file)
  : upload_response * option (string * list Byte.byte) :=
  match upload_single (rule env) part with
  | Throw message => (error_middleware message, None)
  | Ok None => (status_json 400 (Failed "No file provided"), None)
  | Ok (Some f) =>
    let timestamp := now env in
    let ext := NodePath.extname (originalname f) in
    let filename := "uploads/" ++ Z_to_string timestamp ++ "_" ++ randomString env ++ ext in
    match write env filename (buffer f) with
    | Finish =>
      (json (Uploaded filename
               "File uploaded successfully! Analysis will begin shortly."
               (docId filename)),
       Some (filename, buffer f))
    | StreamError message => (status_json 500 (Failed ("Upload failed: " ++ message)), None)
    | WriteThrows message => (status_json 500 (Failed message), None)
    end
  end.

(** *** [GET /api/results] *)

(** A Firestore [Timestamp]. *)
Record Timestamp := mkTimestamp { seconds : Z; nanoseconds : Z }.

(** The [processed_at] field of a stored document: a string, or a
    [Timestamp] object (the one value with a [toDate] method). *)
Inductive stamp :=
| StampString (s : string)
| StampObject (t : Timestamp).

(** [doc.data()]: [processed_at], a stored field named [id] if the data
    has one (its value as text), and the other fields, which the server copies
    without reading them. *)
Record doc_data (P : Type) := mkData {
  processed_at : option stamp;
  own_id : option string;
  fields : P
}.
Arguments mkData {P}.
Arguments processed_at {P}.
Arguments own_id {P}.
Arguments fields {P}.

Record document (P : Type) := mkDocument {
  doc_id : string;
  data : Exc (doc_data P)
}.
Arguments mkDocument {P}.
Arguments doc_id {P}.
Arguments data {P}.

(** An element of the response: [{ id: doc.id, ...data }]. *)
Record result (P : Type) := mkResult {
  id : string;
  result_processed_at : option string;
  result_fields : P
}.
Arguments mkResult {P}.
Arguments id {P}.
Arguments result_processed_at {P}.
Arguments result_fields {P}.

Record results_response (P : Type) := mkResultsResponse {
  results_status : Z;
  results_body : list (result P)
}.
Arguments mkResultsResponse {P}.
Arguments results_status {P}.
Arguments results_body {P}.

(** The [id] of [{ id: doc.id, ...data }]: the spread comes second, so a
    stored field named [id] replaces the identifier of the document. *)
Definition spread_id {P : Type} (d : document P) (dat : doc_data P) : string :=
  match own_id dat with
  | Some stored => stored
  | None => doc_id d
  end.

(** [Array.prototype.sort(compare)]: a stable sort; [compare a b <= 0] keeps
    [a], the earlier element, before [b]. *)
Fixpoint insert {A : Type} (compare : A -> A -> Z) (x : A) (l : list A) : list A :=
  match l with
  | [] => [x]
  | y :: l' => if compare x y <=? 0 then x :: y :: l' else y :: insert compare x l'
  end.

Fixpoint sort {A : Type} (compare : A -> A -> Z) (l : list A) : list A :=
  match l with
  | [] => []
  | x :: l' => insert compare x (sort compare l')
  end.

Section ApiResults.
Context {P : Type}.
(** [String.prototype.localeCompare] and [Timestamp.toDate().toISOString()]
    of the runtime. *)
Variable localeCompare : string -> string -> Z.
Variable toISOString : Timestamp -> Exc string.

(** The body of [snapshot.forEach]: the result pushed, or nothing when the
    document could not be processed. *)
Definition process (d : document P) : option (result P) :=
  try_or
    (bind (data d) (fun dat =>
       bind (match processed_at dat with
             | Some (StampObject t) => bind (toISOString t) (fun s => Ok (Some s))
             | Some (StampString s) => Ok (Some s)
             | None => Ok None
             end) (fun at_ =>
         Ok (Some (mkResult (spread_id d dat) at_ (fields dat))))))
    (fun _ => None).

Fixpoint forEach (snapshot : list (document P)) : list (result P) :=
  match snapshot with
  | [] => []
  | d :: rest =>
    match process d with
    | Some r => r :: forEach rest
    | None => forEach rest
    end
  end.

(** [a.processed_at || ""] *)
Definition date (r : result P) : string := or_else (result_processed_at r) "".

Definition by_processed_at (a b : result P) : Z :=
  let dateA := date a in
  let dateB := date b in
  localeCompare dateB dateA.

(** The handler; [get] is the outcome of
    [firestore.collection("audio_analyses").get()]. *)
Definition get_api_results (get : Exc (list (document P))) : results_response P :=
  try_or
    (bind get (fun snapshot =>
       let results := forEach snapshot in
       Ok (mkResultsResponse 200 (sort by_processed_at results))))
    (fun _ => mkResultsResponse 200 []).

End ApiResults.

(** A list of results in non-increasing code unit order of [date]: the most
    recent first. *)
Definition most_recent_first {P : Type} (rs : list (result P)) : Prop :=
  StronglySorted (fun a b => String.leb (date b) (date a) = true) rs.

(** A list of results in non-increasing order of [date] as [localeCompare]
    orders strings: the order the comparator of the handler asks for. *)
Definition sorted_by_localeCompare {P : Type} (localeCompare : string -> string -> Z)
    (rs : list (result P)) : Prop :=
  StronglySorted (fun a b => localeCompare (date b) (date a) <= 0) rs.

(** A comparator that [Array.prototype.sort] can sort by: of two strings
    one is not after the other, and the order is transitive. *)
Definition consistent (localeCompare : string -> string -> Z) : Prop :=
  (forall a b, localeCompare a b <= 0 \/ localeCompare b a <= 0)
  /\ (forall a b c, localeCompare a b <= 0 -> localeCompare b c <= 0 -> localeCompare a c <= 0).

(** [localeCompare] orders the given strings as their code units do (as is
    the case for timestamps written in one ISO 8601 format). *)
Definition orders_by_code_units (localeCompare : string -> string -> Z) (l : list string) : Prop :=
  forall x y, In x l -> In y l -> Z.sgn (localeCompare x y) = code_unit_order x y.

(** The [date]s the comparator is applied to while a request is served. *)
Definition dates_compared {P : Type} (toISOString : Timestamp -> Exc string)
    (get : Exc (list (document P))) : list string :=
  match get with
  | Ok snapshot => map date (forEach toISOString snapshot)
  | Throw _ => []
  end.

End Server.

(** ** The results page script (in the sources it follows [server.js]) *)

Module ResultsPage.
Import Js.

(** The operations the page applies to a JavaScript number. *)
Class JsNumber (num : Type) := {
  (** [!x]: [x] is [0] or [NaN] *)
  falsy : num -> bool;
  (** [x.toFixed(digits)] *)
  toFixed : num -> Z -> string;
  (** [`${x}`] and [x.toString()] *)
  toString : num -> string;
  (** [Math.floor(x / k)] *)
  floor_div : num -> Z -> num;
  (** [Math.floor(x % k)] *)
  floor_rem : num -> Z -> num
}.

Record mood := mkMood {
  energy_level : option string;
  brightness : option string;
  rhythmic_stability : option string
}.

Record feature_values (num : Type) := mkFeatures {
  spectral_centroid_mean : option num
}.
Arguments mkFeatures {num}.
Arguments spectral_centroid_mean {num}.

(** The fields of a stored analysis that the page reads. *)
Record analysis (num : Type) := mkAnalysis {
  file_name : option string;
  error : option string;
  tempo_bpm : option num;
  estimated_key : option string;
  duration_seconds : option num;
  features : option (feature_values num);
  mood_indicators : option mood
}.
Arguments mkAnalysis {num}.
Arguments file_name {num}.
Arguments error {num}.
Arguments tempo_bpm {num}.
Arguments estimated_key {num}.
Arguments duration_seconds {num}.
Arguments features {num}.
Arguments mood_indicators {num}.

Definition nl : string := String "010"%char "".
Definition lines (l : list string) : string := String.concat nl l.

(** Markup is written with ['] where the source has a double quote. *)
Definition html (s : string) : string := replace_char "'" "034" s.

(** [div.textContent = text; return div.innerHTML]: the serialisation of a
    text node; a missing text gives the empty string. *)
Fixpoint escape_text (s : string) : string :=
  match s with
  | EmptyString => EmptyString
  | String c s' =>
    (if Ascii.eqb c "&" then "&amp;"
     else if Ascii.eqb c "<" then "&lt;"
     else if Ascii.eqb c ">" then "&gt;"
     else if Ascii.eqb c "160" then "&nbsp;"
     else String c "") ++ escape_text s'
  end.

Definition escapeHtml (text : option string) : string :=
  match text with
  | Some s => escape_text s
  | None => ""
  end.

(** [s.replace(" ", "-")]: a string pattern replaces the first match only. *)
Fixpoint replace_first (c by_ : ascii) (s : string) : string :=
  match s with
  | EmptyString => EmptyString
  | String x s' => if Ascii.eqb x c then String by_ s' else String x (replace_first c by_ s')
  end.

(** [s.padStart(2, "0")] *)
Definition padStart2 (s : string) : string :=
  match String.length s with
  | O => "00"
  | S O => "0" ++ s
  | _ => s
  end.

(** An element of the list the page fetches from [/api/results]. *)
Definition card (num : Type) : Type := Server.result (analysis num).

(** How both kinds of card open, up to the file name. *)
Definition card_open : string :=
  html (lines [""; "        <div class='result-card'>"; "            <div class='file-name'>"]).

(** The markup of a card shows a failure message: the heading of the error
    box followed by the escaped message. *)
Definition shows_failure (markup : string) (message : option string) : Prop :=
  exists before after,
    markup = before
             ++ html (lines ["<div class='error-message'>";
                             "                <strong>Analysis Failed:</strong><br>";
                             "                "])
             ++ escapeHtml message ++ after.

Section Page.
Context {num : Type} `{JsNumber num}.
(** [new Date(timestamp).toLocaleString()] of the browser. *)
Variable toLocaleString : string -> Exc string.

Definition formatDuration (seconds : option num) : string :=
  match seconds with
  | None => "N/A"
  | Some x =>
    if falsy x then "N/A"
    else
      let mins := floor_div x 60 in
      let secs := floor_rem x 60 in
      toString mins ++ ":" ++ padStart2 (toString secs)
  end.

Definition formatTimestamp (timestamp : string) : string :=
  try_or (toLocaleString timestamp) (fun _ => timestamp).

(** [x?.toFixed(digits) || "N/A"] *)
Definition fixed_or_na (x : option num) (digits : Z) : string :=
  match x with
  | Some v => or_else (Some (toFixed v digits)) "N/A"
  | None => "N/A"
  end.

(** [result.processed_at ? `... label: ${formatTimestamp(...)} ...` : ""] *)
Definition timestamp_line (label : string) (r : card num) : string :=
  if truthy (Server.result_processed_at r) then
    html (lines [""; "            <div class='timestamp'>" ++ label ++ ": "])
    ++ formatTimestamp (or_else (Server.result_processed_at r) "")
    ++ lines ["</div>"; "            "]
  else "".

Definition createResultCard (r : card num) : string :=
  let result := Server.result_fields r in
  let mood := match mood_indicators result with
              | Some m => m
              | None => mkMood None None None
              end in
  let energyClass := replace_first " " "-" (toLowerCase (or_else (energy_level mood) "")) in
  let brightnessClass := toLowerCase (or_else (brightness mood) "") in
  html (lines [""; "        <div class='result-card'>"; "            <div class='file-name'>"])
  ++ escapeHtml (file_name result)
  ++ html (lines ["</div>"; "            "; "            <div class='metric'>";
                  "                <span class='metric-label'>Tempo</span>";
                  "                <span class='metric-value'>"])
  ++ fixed_or_na (tempo_bpm result) 1
  ++ html (lines [" BPM</span>"; "            </div>"; "            ";
                  "            <div class='metric'>";
                  "                <span class='metric-label'>Key</span>";
                  "                <span class='metric-value'>"])
  ++ or_else (estimated_key result) "N/A"
  ++ html (lines ["</span>"; "            </div>"; "            ";
                  "            <div class='metric'>";
                  "                <span class='metric-label'>Duration</span>";
                  "                <span class='metric-value'>"])
  ++ formatDuration (duration_seconds result)
  ++ lines ["</span>"; "            </div>"; "            "; "            "]
  ++ match features result with
     | Some f =>
       html (lines [""; "            <div class='metric'>";
                    "                <span class='metric-label'>Brightness</span>";
                    "                <span class='metric-value'>"])
       ++ fixed_or_na (spectral_centroid_mean f) 0
       ++ lines [" Hz</span>"; "            </div>"; "            "]
     | None => ""
     end
  ++ html (lines [""; "            "; "            <div class='mood-badges'>";
                  "                "])
  ++ (if truthy (energy_level mood)
      then html "<span class='badge " ++ energyClass ++ html "'>"
           ++ or_else (energy_level mood) "" ++ "</span>"
      else "")
  ++ lines [""; "                "]
  ++ (if truthy (brightness mood)
      then html "<span class='badge " ++ brightnessClass ++ html "'>"
           ++ or_else (brightness mood) "" ++ "</span>"
      else "")
  ++ lines [""; "                "]
  ++ (if truthy (rhythmic_stability mood)
      then html "<span class='badge'>" ++ or_else (rhythmic_stability mood) "" ++ "</span>"
      else "")
  ++ lines [""; "            </div>"; "            "; "            "]
  ++ timestamp_line "Analyzed" r
  ++ lines [""; "        </div>"; "    "].

Definition createErrorCard (r : card num) : string :=
  let result := Server.result_fields r in
  html (lines [""; "        <div class='result-card'>"; "            <div class='file-name'>"])
  ++ escapeHtml (file_name result)
  ++ html (lines ["</div>"; "            <div class='error-message'>";
                  "                <strong>Analysis Failed:</strong><br>";
                  "                "])
  ++ escapeHtml (error result)
  ++ lines [""; "            </div>"; "            "]
  ++ timestamp_line "Attempted" r
  ++ lines [""; "        </div>"; "    "].

(** The callback of [results.map] in [renderResults]. *)
Definition render_one (r : card num) : string :=
  if truthy (error (Server.result_fields r))
  then createErrorCard r
  else createResultCard r.

(** The markup [renderResults] assigns to [resultsContainer.innerHTML]. *)
Definition renderResults (results : list (card num)) : string :=
  String.concat "" (map render_one results).

(** How a record is drawn: as an error card that shows its message, or as
    a result card. *)
Definition drawn (r : card num) (markup : string) : Prop :=
  (truthy (error (Server.result_fields r)) = true
   /\ markup = createErrorCard r
   /\ shows_failure markup (error (Server.result_fields r)))
  \/ (truthy (error (Server.result_fields r)) = false
      /\ markup = createResultCard r).

End Page.

End ResultsPage.

(** ** The trigger of the analysis function: [terraform/main.tf] *)

Module Terraform.

Inductive retry_policy :=
| RETRY_POLICY_UNSPECIFIED
| RETRY_POLICY_DO_NOT_RETRY
| RETRY_POLICY_RETRY.

Record event_filter := mkFilter {
  attribute : string;
  value : string
}.

Record event_trigger := mkTrigger {
  event_type : string;
  retry : retry_policy;
  event_filters : list event_filter
}.

(** The [event_trigger] block of [google_cloudfunctions2_function.audio_analysis];
    [bucket_name] is [var.bucket_name]. *)
Definition audio_analysis_trigger (bucket_name : string) : event_trigger :=
  mkTrigger "google.cloud.storage.object.v1.finalized"
            RETRY_POLICY_DO_NOT_RETRY
            [mkFilter "bucket" bucket_name].

End Terraform.

(** ** The analysis pipeline *)

Module Pipeline.
Import Js.

(** Modelled from the spec: the twelve pitch class names of
    [estimated_key] (section 3); the analysis function that produces them is
    not among the sources. *)
Inductive pitch_class := C | Cs | D | Ds | E | F | Fs | G | Gs | A | As | B.

(** Modelled from the spec: the labels of the mood indicators (section 3). *)
Inductive energy_level := LowEnergy | MediumEnergy | HighEnergy.
Inductive brightness := Dark | Balanced | Bright.
Inductive rhythmic_stability := Unstable | Moderate | Stable.

(** Modelled from the spec: [MoodIndicators] (section 3). *)
Record MoodIndicators := mkMood {
  energy : energy_level;
  bright : brightness;
  stability : rhythmic_stability
}.

(** Modelled from the spec: the [features] object of a result (sections 3
    and 6); [num] stands for the real numbers of the measurements. *)
Record Features (num : Type) := mkFeatures {
  spectral_centroid_mean : num;
  rms_energy_mean : num;
  zero_crossing_rate_mean : num;
  mfcc : list num
}.
Arguments mkFeatures {num}.
Arguments spectral_centroid_mean {num}.
Arguments rms_energy_mean {num}.
Arguments zero_crossing_rate_mean {num}.
Arguments mfcc {num}.

(** Modelled from the spec: [AnalysisResult] (sections 3 and 6), with a
    field that a record may lack as an [option]. *)
Record AnalysisResult (num : Type) := mkResult {
  file_name : string;
  duration_seconds : option num;
  tempo_bpm : option num;
  estimated_key : option pitch_class;
  features : option (Features num);
  mood_indicators : option MoodIndicators;
  processed_at : string;
  error : option string
}.
Arguments mkResult {num}.
Arguments file_name {num}.
Arguments duration_seconds {num}.
Arguments tempo_bpm {num}.
Arguments estimated_key {num}.
Arguments features {num}.
Arguments mood_indicators {num}.
Arguments processed_at {num}.
Arguments error {num}.

(** Modelled from the spec: the components the result assembler
    orchestrates (sections 4.1 to 4.4), whose code (the analysis function) is
    not among the sources. Each is a function of its input (section 5: no
    state is shared between invocations) that returns its value or fails with
    a message; the signal processing itself is left open. The cutoffs of the
    mood classifier are configuration (section 4.5), and [describe] writes
    the message of an error record from the failure and the duration, when
    the loader had already produced it (section 4.6). *)
Class Components (num audio : Type) := {
  less : num -> num -> bool;
  load : list Byte.byte -> string -> Exc (audio * num);
  estimate_tempo : audio -> Exc (num * num);
  estimate_key : audio -> Exc pitch_class;
  extract_spectral : audio -> Exc (Features num);
  tempo_high : num;
  tempo_low : num;
  rms_high : num;
  rms_low : num;
  centroid_high : num;
  centroid_low : num;
  regularity_high : num;
  regularity_low : num;
  describe : string -> option num -> string
}.

(** Modelled from the spec: the three extraction tasks that run
    concurrently on a decoded file (sections 2, 5 and 9). *)
Inductive task := TempoTask | KeyTask | SpectralTask.

(** Modelled from the spec: what one run adds to its input: the order in
    which the join before the classifier comes to see the tasks end
    (section 9: "concurrent tasks joined before mood classification"). The
    spec leaves it to the scheduler, so it may differ from run to run. *)
Class Schedule := { joined : list task }.

Section Assembler.
Context {num audio : Type} {components : Components num audio} {schedule : Schedule}.

(** Modelled from the spec: the mood classifier of section 4.5, three
    ordered rule lists over fixed cutoffs. *)
Definition classify (tempo rms centroid regularity : num) : MoodIndicators :=
  mkMood
    (if less tempo_high tempo && less rms_high rms then HighEnergy
     else if less tempo tempo_low && less rms rms_low then LowEnergy
     else MediumEnergy)
    (if less centroid_high centroid then Bright
     else if less centroid centroid_low then Dark
     else Balanced)
    (if less regularity_high regularity then Stable
     else if less regularity regularity_low then Unstable
     else Moderate).

(** Modelled from the spec: the two shapes of a result (sections 4.6 and
    6): on failure [file_name], [error] and [processed_at] only. *)
Definition error_record (name message now : string) : AnalysisResult num :=
  mkResult name None None None None None now (Some message).

Definition success_record (name : string) (duration tempo : num) (key : pitch_class)
    (f : Features num) (mood : MoodIndicators) (now : string) : AnalysisResult num :=
  mkResult name (Some duration) (Some tempo) (Some key) (Some f) (Some mood) now None.

(** Modelled from the spec: the message a component failed with, if it
    failed (sections 4.6 and 7). *)
Definition failure {T : Type} (outcome : Exc T) : option string :=
  match outcome with
  | Ok _ => None
  | Throw message => Some message
  end.

(** Modelled from the spec: the failure of a task on a decoded file. *)
Definition failure_of (audio_ : audio) (t : task) : option string :=
  match t with
  | TempoTask => failure (estimate_tempo audio_)
  | KeyTask => failure (estimate_key audio_)
  | SpectralTask => failure (extract_spectral audio_)
  end.

(** Modelled from the spec: the failure the join reports: that of the
    first failed task in the order given. *)
Fixpoint first_failure (audio_ : audio) (order : list task) : option string :=
  match order with
  | [] => None
  | t :: rest =>
    match failure_of audio_ t with
    | Some message => Some message
    | None => first_failure audio_ rest
    end
  end.

(** Modelled from the spec: the messages of the tasks that fail on a
    decoded file. *)
Definition failures (audio_ : audio) : list string :=
  flat_map (fun t => match failure_of audio_ t with
                     | Some message => [message]
                     | None => []
                     end) [TempoTask; KeyTask; SpectralTask].

(** Modelled from the spec: the messages of what fails on a buffer: the
    loader, or else the tasks on what it decoded. *)
Definition failures_on (bytes : list Byte.byte) (name : string) : list string :=
  match load bytes name with
  | Ok decoded => failures (fst decoded)
  | Throw message => [message]
  end.

(** Modelled from the spec: the control flow of section 2 after the loader:
    the three estimators as concurrent tasks, joined in the order of the
    run's schedule (a task the schedule leaves out is joined last), then the
    classifier on their outputs. A failed task fails the join. *)
Definition extract (name : string) (audio_ : audio) (duration : num) (now : string)
  : Exc (AnalysisResult num) :=
  let tempo_task := estimate_tempo audio_ in
  let key_task := estimate_key audio_ in
  let spectral_task := extract_spectral audio_ in
  match first_failure audio_ (joined ++ [TempoTask; KeyTask; SpectralTask]) with
  | Some message => Throw message
  | None =>
    bind tempo_task (fun tempo_and_regularity =>
    bind key_task (fun key =>
    bind spectral_task (fun f =>
      let tempo := fst tempo_and_regularity in
      let regularity := snd tempo_and_regularity in
      let mood := classify tempo (rms_energy_mean f) (spectral_centroid_mean f) regularity in
      Ok (success_record name duration tempo key f mood now))))
  end.

(** Modelled from the spec: the result assembler of section 4.6, the
    pipeline's interface. It runs the loader, then the estimators and the
    classifier, and catches the failure of any of them; [now] is the time
    of assembly. The outcome is what the caller observes: a result, or a
    fault that got past the interface. *)
Definition analyze (bytes : list Byte.byte) (name : string) (now : string)
  : Exc (AnalysisResult num) :=
  try_catch
    (bind (load bytes name) (fun decoded =>
       let audio_ := fst decoded in
       let duration := snd decoded in
       try_catch (extract name audio_ duration now)
         (fun message => Ok (error_record name (describe message (Some duration)) now))))
    (fun message => Ok (error_record name (describe message None) now)).

(** Which fields a result carries: [error], all of the feature fields, none
    of them. *)
Definition has_error (r : AnalysisResult num) : bool :=
  match error r with Some _ => true | None => false end.

Definition present {T : Type} (v : option T) : bool :=
  match v with Some _ => true | None => false end.

Definition all_feature_fields (r : AnalysisResult num) : bool :=
  present (duration_seconds r) && present (tempo_bpm r) && present (estimated_key r)
  && present (features r) && present (mood_indicators r).

Definition no_feature_field (r : AnalysisResult num) : bool :=
  negb (present (duration_seconds r)) && negb (present (tempo_bpm r))
  && negb (present (estimated_key r)) && negb (present (features r))
  && negb (present (mood_indicators r)).

End Assembler.

End Pipeline.

(** ** Sample inputs for the examples *)

Module Samples.
Import Js.

Definition small_upload : Server.file :=
  Server.mkFile "take one.WAV" "audio/wav" [Byte.x52; Byte.x49; Byte.x46; Byte.x46].

Definition quiet_env : Server.upload_env :=
  Server.mkUploadEnv 1700000000000 "k3x9a" (fun _ _ => Server.Finish) Server.StrictlyLarger.

(** A file one byte over the cap. *)
Definition long_body : list Byte.byte :=
  repeat Byte.x00 (Z.to_nat (Server.MAX_FILE_SIZE + 1)).

Definition long_upload : Server.file := Server.mkFile "long.mp3" "audio/mpeg" long_body.

(** Three stored analyses: one stamped by the store, one without a date and
    one with a string date. *)
Definition sample_snapshot : list (Server.document string) :=
  [ Server.mkDocument "uploads_1_a_mp3"
      (Ok (Server.mkData (Some (Server.StampObject (Server.mkTimestamp 1717243200 0))) None "a.mp3"));
    Server.mkDocument "uploads_2_b_wav" (Ok (Server.mkData None None "b.wav"));
    Server.mkDocument "uploads_3_c_flac"
      (Ok (Server.mkData (Some (Server.StampString "2024-06-02T08:30:00.000000")) None "c.flac")) ].

(** Two analyses stamped within the same second, one on the whole second
    and written without a fraction. *)
Definition same_second_snapshot : list (Server.document string) :=
  [ Server.mkDocument "whole"
      (Ok (Server.mkData (Some (Server.StampString "2024-06-01T12:00:00+00:00")) None "a.mp3"));
    Server.mkDocument "frac"
      (Ok (Server.mkData (Some (Server.StampString "2024-06-01T12:00:00.250000+00:00")) None
             "b.mp3")) ].

(** A collation that differs from the order of the code units in one
    respect: it puts ['.'] before ['+'], as the root collation of the
    runtime's [Intl] does with punctuation and symbols. *)
Definition collation_key (c : ascii) : ascii :=
  if Ascii.eqb c "." then "+"%char
  else if Ascii.eqb c "+" then "."%char
  else c.

Definition punctuation_first (a b : string) : Z :=
  code_unit_order (map_chars collation_key a) (map_chars collation_key b).

Definition sample_toISOString (t : Server.Timestamp) : Exc string :=
  if Server.seconds t =? 1717243200 then Ok "2024-06-01T12:00:00.000Z"
  else Throw "RangeError: Invalid time value".

(** Numbers for the examples: whole numbers, printed in decimal. *)
#[export] Instance whole_numbers : ResultsPage.JsNumber Z := {|
  ResultsPage.falsy := Z.eqb 0;
  ResultsPage.toFixed := fun x digits =>
    Server.Z_to_string x
    ++ (if 0 <? digits then "." ++ String.concat "" (repeat "0" (Z.to_nat digits)) else "");
  ResultsPage.toString := Server.Z_to_string;
  ResultsPage.floor_div := Z.div;
  ResultsPage.floor_rem := Z.modulo
|}.

Definition sample_toLocaleString (timestamp : string) : Exc string := Ok timestamp.

(** A failed analysis whose exception carried no message. *)
Definition silent_failure : ResultsPage.card Z :=
  Server.mkResult "uploads_1_x_mp3" (Some "2024-06-01T12:00:00")
    (ResultsPage.mkAnalysis (Some "x.mp3") (Some "") None None None None None).

(** Stand-ins for the components of the pipeline: a loader that wants an
    [ID3] tag and takes the bytes after it as samples, and estimators over
    whole numbers. *)
#[export] Instance sample_components : Pipeline.Components Z (list Z) := {|
  Pipeline.less := Z.ltb;
  Pipeline.load := fun bytes name =>
    match bytes with
    | Byte.x49 :: Byte.x44 :: Byte.x33 :: body =>
      Ok (map (fun b => Z.of_N (Byte.to_N b)) body, Z.of_nat (List.length body))
    | _ => Throw "DecodeError: no audio stream found"
    end;
  Pipeline.estimate_tempo := fun samples =>
    match samples with
    | [] => Ok (0, 0)
    | _ => Ok (120, 1)
    end;
  Pipeline.estimate_key := fun samples =>
    if forallb (Z.eqb 255) samples then Throw "AnalysisError: no harmonic content"
    else Ok Pipeline.G;
  Pipeline.extract_spectral := fun samples =>
    if existsb (Z.eqb 255) samples then Throw "AnalysisError: clipped input"
    else Ok (Pipeline.mkFeatures (fold_right Z.max 0 samples) (fold_right Z.add 0 samples) 0 []);
  Pipeline.tempo_high := 140;
  Pipeline.tempo_low := 90;
  Pipeline.rms_high := 100;
  Pipeline.rms_low := 10;
  Pipeline.centroid_high := 50;
  Pipeline.centroid_low := 5;
  Pipeline.regularity_high := 0;
  Pipeline.regularity_low := 0;
  Pipeline.describe := fun message duration => message
|}.

(** Two schedules: the spectral task is seen to end first, or the key
    estimator. *)
#[export] Instance spectral_first : Pipeline.Schedule :=
  {| Pipeline.joined := [Pipeline.SpectralTask; Pipeline.TempoTask; Pipeline.KeyTask] |}.

Definition key_first : Pipeline.Schedule :=
  {| Pipeline.joined := [Pipeline.KeyTask; Pipeline.SpectralTask; Pipeline.TempoTask] |}.

Definition garbage : list Byte.byte := [Byte.xde; Byte.xad; Byte.xbe].

Definition tagged : list Byte.byte := [Byte.x49; Byte.x44; Byte.x33; Byte.x07; Byte.x03].

Definition clipped : list Byte.byte := [Byte.x49; Byte.x44; Byte.x33; Byte.xff].

End Samples.

(** ** Further routes and settings of the web server *)

Module ServerRoutes.
Import Js Server.

(** [process.env.NAME || fallback] *)
Definition env_or (env : string -> option string) (name fallback : string) : string :=
  or_else (env name) fallback.

Definition BUCKET_NAME (env : string -> option string) : string :=
  env_or env "BUCKET_NAME" "audio-files-dynamic-hub-471412-r1".

Definition projectId (env : string -> option string) : string :=
  env_or env "GOOGLE_CLOUD_PROJECT" "dynamic-hub-471412-r1".

(** The strings [Math.random().toString(36).substring(7)] can give: digits
    in base 36. *)
Definition base36_char (c : ascii) : bool :=
  let n := Z.of_N (N_of_ascii c) in
  ((48 <=? n) && (n <=? 57)) || ((97 <=? n) && (n <=? 122)).

Fixpoint base36 (s : string) : bool :=
  match s with
  | EmptyString => true
  | String c s' => base36_char c && base36 s'
  end.

(** A character that is none of ['/'], ['.'] and ['_']. *)
Definition plain_char (c : ascii) : bool :=
  negb (Ascii.eqb c "/") && negb (Ascii.eqb c ".") && negb (Ascii.eqb c "_").

Fixpoint plain (s : string) : bool :=
  match s with
  | EmptyString => true
  | String c s' => plain_char c && plain s'
  end.

(** The name under which an accepted file is stored. *)
Definition stored_name (env : upload_env) (f : file) : string :=
  "uploads/" ++ Z_to_string (now env) ++ "_" ++ randomString env
  ++ NodePath.extname (originalname f).

(** The body of the response of [GET /api/result/:docId]. *)
Inductive doc_body (P : Type) :=
| Found (id : string) (data : doc_data P)
| Problem (error : string).
Arguments Found {P} id data.
Arguments Problem {P} error.

Record doc_response (P : Type) := mkDocResponse {
  doc_status : Z;
  doc_json : doc_body P
}.
Arguments mkDocResponse {P}.
Arguments doc_status {P}.
Arguments doc_json {P}.

(** [app.get("/api/result/:docId", ...)]; [fetched] is the outcome of
    [firestore.collection("audio_analyses").doc(req.params.docId).get()]:
    the stored document ([doc.exists]), none, or a failure. *)
Definition get_api_result {P : Type} (fetched : Exc (option (document P))) : doc_response P :=
  try_or
    (bind fetched (fun doc =>
       match doc with
       | None =>
         Ok (mkDocResponse 404 (Problem "Analysis not found yet. Please wait a moment."))
       | Some d =>
         bind (data d) (fun dat => Ok (mkDocResponse 200 (Found (spread_id d dat) dat)))
       end))
    (fun message => mkDocResponse 500 (Problem message)).

(** What [collection.doc(docId).get()] finds in a collection that holds the
    given documents. *)
Definition doc_of {P : Type} (collection : list (document P)) (docId : string)
  : option (document P) :=
  find (fun d => (doc_id d =? docId)%string) collection.

(** What [process] makes of the [processed_at] of a document. *)
Definition converted (toISOString : Timestamp -> Exc string) (at_ : option stamp)
  : Exc (option string) :=
  match at_ with
  | Some (StampObject t) => bind (toISOString t) (fun s => Ok (Some s))
  | Some (StampString s) => Ok (Some s)
  | None => Ok None
  end.

End ServerRoutes.

(** ** The deployment of the web application: [terraform/main.tf],
    [terraform/variables.tf] *)

Module Deployment.
Import Terraform.

(** The defaults of [var.bucket_name] and [var.project_id]. *)
Definition default_bucket_name : string := "audio-files-dynamic-hub-471412-r1".
Definition default_project_id : string := "dynamic-hub-471412-r1".

(** The [env] blocks of the container of
    [google_cloud_run_v2_service.webapp]. *)
Definition webapp_env (bucket_name project_id : string) : list (string * string) :=
  [("BUCKET_NAME", bucket_name); ("GOOGLE_CLOUD_PROJECT", project_id)].

(** [process.env] of a container started with the given variables. *)
Fixpoint process_env (vars : list (string * string)) (name : string) : option string :=
  match vars with
  | [] => None
  | (n, v) :: rest => if (n =? name)%string then Some v else process_env rest name
  end.

(** The bucket whose events a trigger receives: the value of its [bucket]
    filter. *)
Definition watched_bucket (t : event_trigger) : option string :=
  option_map value (find (fun f => (attribute f =? "bucket")%string) (event_filters t)).

End Deployment.

(** ** Loading the results page (the script that follows [server.js]) *)

Module ResultsLoader.
Import Js ResultsPage.

(** How often [c] occurs in [s]. *)
Fixpoint count_char (c : ascii) (s : string) : nat :=
  match s with
  | EmptyString => O
  | String x s' => ((if Ascii.eqb x c then 1 else 0) + count_char c s')%nat
  end.

(** What the script reads and writes of an element. *)
Record element := mkElement {
  display : string;
  innerHTML : string
}.

Record page := mkPage {
  loadingContainer : element;
  resultsContainer : element;
  emptyContainer : element
}.

Definition set_display (value : string) (e : element) : element :=
  mkElement value (innerHTML e).

Definition set_innerHTML (value : string) (e : element) : element :=
  mkElement (display e) value.

Section Loader.
Context {num : Type} `{JsNumber num}.
Variable toLocaleString : string -> Exc string.

(** [loadResults]; [fetched] is the outcome of [fetch("/api/results")]
    followed by [response.json()]: the array received, or the failure of
    either call. *)
Definition loadResults (fetched : Exc (list (card num))) (p : page) : page :=
  try_or
    (bind fetched (fun data =>
       let p1 := mkPage (set_display "none" (loadingContainer p))
                        (resultsContainer p) (emptyContainer p) in
       if (Z.of_nat (List.length data) =? 0)
       then Ok (mkPage (loadingContainer p1) (resultsContainer p1)
                       (set_display "block" (emptyContainer p1)))
       else
         let shown := set_display "grid" (resultsContainer p1) in
         Ok (mkPage (loadingContainer p1)
                    (set_innerHTML (renderResults toLocaleString data) shown)
                    (emptyContainer p1))))
    (fun message =>
       mkPage (set_display "none" (loadingContainer p))
              (set_display "block"
                 (set_innerHTML
                    (html "<div class='error-message'>Failed to load results: "
                     ++ message ++ "</div>")
                    (resultsContainer p)))
              (emptyContainer p)).

(** The page after the first load and the refreshes that [setInterval]
    starts, one outcome per call. *)
Definition refreshes (outcomes : list (Exc (list (card num)))) (p : page) : page :=
  fold_left (fun q fetched => loadResults fetched q) outcomes p.

End Loader.

(** A load that received the empty array, and one that received records or
    failed. *)
Definition received_nothing {num : Type} (fetched : Exc (list (card num))) : bool :=
  match fetched with
  | Ok [] => true
  | _ => false
  end.

Definition drew_something {num : Type} (fetched : Exc (list (card num))) : bool :=
  negb (received_nothing fetched).

End ResultsLoader.

(** ** The upload page: [public/js/index.js] *)

Module UploadPage.
Import Js.

(** What the script reads and writes of the page. *)
Record ui := mkUi {
  selectedFile : option Server.file;
  fileName : string;
  fileSize : string;
  fileInfo_show : bool;
  uploadBtn_disabled : bool;
  message_text : string;
  message_classes : list string;
  spinner_show : bool;
  dragging : bool;
  redirects : nat
}.

(** The body of the response of [/upload], as the script reads it:
    [data.message] and [data.error]. *)
Record upload_data := mkData {
  message : option string;
  error : option string
}.

Record fetch_response := mkFetched {
  ok : bool;
  data : upload_data
}.

(** [classList.remove("show")] *)
Definition remove_class (name : string) (classes : list string) : list string :=
  filter (fun c => negb (c =? name)%string) classes.

(** [value + " text"] on a value that may be [undefined]. *)
Definition to_text (v : option string) : string :=
  match v with
  | Some s => s
  | None => "undefined"
  end.

Section Handlers.
(** [formatBytes], whose arithmetic is in floating point, is left open. *)
Variable formatBytes : Z -> string.

Definition handleFile (file : Server.file) (s : ui) : ui :=
  mkUi (Some file) (Server.originalname file) (formatBytes (Server.size file)) true false
       (message_text s) (remove_class "show" (message_classes s))
       (spinner_show s) (dragging s) (redirects s).

(** The [click] listener of the upload button, run from its start to its
    end with no other listener in between; [fetched] is the outcome of
    [fetch("/upload", ...)] followed by [response.json()]. *)
Definition click_upload (fetched : Exc fetch_response) (s : ui) : ui :=
  match selectedFile s with
  | None => s
  | Some _ =>
    try_or
      (bind fetched (fun response =>
         if ok response
         then Ok (mkUi (selectedFile s) (fileName s) (fileSize s) (fileInfo_show s) true
                       (to_text (message (data response)) ++ " Redirecting to results...")
                       ["message"; "success"; "show"] false (dragging s)
                       (S (redirects s)))
         else Ok (mkUi (selectedFile s) (fileName s) (fileSize s) (fileInfo_show s) false
                       (or_else (error (data response)) "Upload failed")
                       ["message"; "error"; "show"] false (dragging s) (redirects s))))
      (fun failure =>
         mkUi (selectedFile s) (fileName s) (fileSize s) (fileInfo_show s) false
              ("Network error: " ++ failure)
              ["message"; "error"; "show"] false (dragging s) (redirects s))
  end.

(** The [click] listener up to its first [await]: the request is on its
    way, the button is disabled and the spinner shown. *)
Definition begin_upload (s : ui) : ui :=
  mkUi (selectedFile s) (fileName s) (fileSize s) (fileInfo_show s) true
       (message_text s) (remove_class "show" (message_classes s))
       true (dragging s) (redirects s).

(** The rest of the listener, which runs once [fetch] and [response.json()]
    have settled, on the page as it is by then: the success branch does not
    write [uploadBtn.disabled]. *)
Definition finish_upload (fetched : Exc fetch_response) (s : ui) : ui :=
  try_or
    (bind fetched (fun response =>
       if ok response
       then Ok (mkUi (selectedFile s) (fileName s) (fileSize s) (fileInfo_show s)
                     (uploadBtn_disabled s)
                     (to_text (message (data response)) ++ " Redirecting to results...")
                     ["message"; "success"; "show"] false (dragging s)
                     (S (redirects s)))
       else Ok (mkUi (selectedFile s) (fileName s) (fileSize s) (fileInfo_show s) false
                     (or_else (error (data response)) "Upload failed")
                     ["message"; "error"; "show"] false (dragging s) (redirects s))))
    (fun failure =>
       mkUi (selectedFile s) (fileName s) (fileSize s) (fileInfo_show s) false
            ("Network error: " ++ failure)
            ["message"; "error"; "show"] false (dragging s) (redirects s)).

(** The page together with the number of [click] listeners that wait for
    their response. *)
Record session := mkSession {
  page : ui;
  waiting : nat
}.

(** What can happen on the page: the events of the user, and the arrival of
    the response (or the failure) a waiting listener resumes with. *)
Inductive event :=
| Change (files : list Server.file)
| DragOver
| DragLeave
| Drop (files : list Server.file)
| Click
| Answer (fetched : Exc fetch_response).

Definition set_dragging (b : bool) (s : ui) : ui :=
  mkUi (selectedFile s) (fileName s) (fileSize s) (fileInfo_show s) (uploadBtn_disabled s)
       (message_text s) (message_classes s) (spinner_show s) b (redirects s).

(** The listeners of the page other than that of the upload button. *)
Definition listen (e : event) (s : ui) : ui :=
  match e with
  | Change files =>
    match files with
    | file :: _ => handleFile file s
    | [] => s
    end
  | DragOver => set_dragging true s
  | DragLeave => set_dragging false s
  | Drop files =>
    match files with
    | file :: _ => handleFile file (set_dragging false s)
    | [] => set_dragging false s
    end
  | Click | Answer _ => s
  end.

(** One step of the page. A click without a selected file returns at once;
    with one, the listener runs up to its [await] and waits, and other
    listeners run before it resumes. An answer resumes a waiting listener;
    without one waiting there is nothing to answer. *)
Definition handle (e : event) (q : session) : session :=
  match e with
  | Click =>
    match selectedFile (page q) with
    | None => q
    | Some _ => mkSession (begin_upload (page q)) (S (waiting q))
    end
  | Answer fetched =>
    match waiting q with
    | O => q
    | S others => mkSession (finish_upload fetched (page q)) others
    end
  | _ => mkSession (listen e (page q)) (waiting q)
  end.

Definition run (events : list event) (q : session) : session :=
  fold_left (fun q' e => handle e q') events q.

End Handlers.

(** What holds of the page between any two steps: the button is enabled
    only with a file selected, a listener waits only with a file selected,
    and the spinner is hidden when no listener waits. *)
Definition settled (q : session) : Prop :=
  (uploadBtn_disabled (page q) = false -> selectedFile (page q) <> None)
  /\ (waiting q <> O -> selectedFile (page q) <> None)
  /\ (waiting q = O -> spinner_show (page q) = false).

(** What [fetch] hands to the script for a response of [/upload]:
    [response.ok] for a status from 200 to 299, and the fields of the body. *)
Definition fetched_from (r : Server.upload_response) : fetch_response :=
  mkFetched ((200 <=? Server.status r) && (Server.status r <=? 299))
            match Server.body r with
            | Server.Uploaded _ m _ => mkData (Some m) None
            | Server.Failed e => mkData None (Some e)
            end.

End UploadPage.

(** ** More sample inputs *)

Module MoreSamples.
Import Js Samples.

Definition second_env : Server.upload_env :=
  Server.mkUploadEnv 1700000000001 "0z" (fun _ _ => Server.Finish) Server.ReachesLimit.

(** Two analyses without a date around a dated one. *)
Definition undated_snapshot : list (Server.document string) :=
  [ Server.mkDocument "first" (Ok (Server.mkData None None "a.mp3"));
    Server.mkDocument "dated"
      (Ok (Server.mkData (Some (Server.StampString "2024-06-02T08:30:00.000000")) None "b.mp3"));
    Server.mkDocument "second" (Ok (Server.mkData (Some (Server.StampString "")) None "c.mp3")) ].

(** A collection in which one document stores a field named [id]. *)
Definition renamed_snapshot : list (Server.document string) :=
  [ Server.mkDocument "uploads_1_a_mp3" (Ok (Server.mkData None None "a.mp3"));
    Server.mkDocument "uploads_2_b_wav" (Ok (Server.mkData None (Some "b") "b.wav")) ].

Definition blank_page : ResultsLoader.page :=
  ResultsLoader.mkPage (ResultsLoader.mkElement "block" "")
                       (ResultsLoader.mkElement "none" "")
                       (ResultsLoader.mkElement "none" "").

(** A page that has drawn one card. *)
Definition drawn_page : ResultsLoader.page :=
  ResultsLoader.loadResults Samples.sample_toLocaleString (Ok [Samples.silent_failure]) blank_page.

Definition idle : UploadPage.ui :=
  UploadPage.mkUi None "" "" false true "" ["message"] false false 0.

Definition sample_formatBytes (bytes : Z) : string := Server.Z_to_string bytes ++ " Bytes".

(** The page after a file was dropped on it. *)
Definition chosen : UploadPage.ui :=
  UploadPage.page
    (UploadPage.run sample_formatBytes
       [UploadPage.DragOver; UploadPage.Drop [Samples.small_upload]]
       (UploadPage.mkSession idle 0)).

(** A visit: a file is dropped and sent; while the request is on its way
    another file is chosen and sent too; the first request fails on the
    network, the second is answered by the server. *)
Definition visit : list UploadPage.event :=
  [ UploadPage.DragOver; UploadPage.Drop [Samples.small_upload];
    UploadPage.Click;
    UploadPage.Change [Samples.small_upload];
    UploadPage.Click;
    UploadPage.Answer (Throw "Failed to fetch");
    UploadPage.Answer
      (Ok (UploadPage.fetched_from
             (fst (Server.post_upload Samples.quiet_env (Some Samples.small_upload))))) ].

End MoreSamples.

(** * Properties *)

(** ** Strings *)

Module JsFacts.
Import Js.

Lemma map_chars_length (f : ascii -> ascii) (s : string) :
  String.length (map_chars f s) = String.length s.
Proof.
  induction s as [|c s IH]; simpl; [reflexivity | now rewrite IH].
Qed.

Lemma map_chars_get (f : ascii -> ascii) (s : string) (i : nat) :
  String.get i (map_chars f s) = option_map f (String.get i s).
Proof.
  revert i; induction s as [|c s IH]; intros i; simpl.
  - reflexivity.
  - destruct i as [|i]; [reflexivity | apply IH].
Qed.

Lemma map_chars_compose (f g : ascii -> ascii) (s : string) :
  map_chars g (map_chars f s) = map_chars (fun c => g (f c)) s.
Proof.
  induction s as [|c s IH]; simpl; [reflexivity | now rewrite IH].
Qed.

Lemma includes_In (l : list string) (x : string) :
  includes l x = true <-> In x l.
Proof.
  unfold includes. rewrite existsb_exists. split.
  - intros [y [Hy Heq]]. apply String.eqb_eq in Heq. now subst.
  - intros Hx. exists x. split; [assumption | apply String.eqb_refl].
Qed.

Lemma ascii_compare_lt_trans (a b c : ascii) :
  Ascii.compare a b = Lt -> Ascii.compare b c = Lt -> Ascii.compare a c = Lt.
Proof.
  unfold Ascii.compare. rewrite !N.compare_lt_iff. apply N.lt_trans.
Qed.

(** The order by code units is transitive. *)
Lemma compare_not_gt_trans (a b c : string) :
  String.compare a b <> Gt -> String.compare b c <> Gt -> String.compare a c <> Gt.
Proof.
  revert b c. induction a as [|x a IH]; intros b c Hab Hbc.
  - destruct c; simpl; discriminate.
  - destruct b as [|y b]; [simpl in Hab; congruence|].
    destruct c as [|z c]; [simpl in Hbc; congruence|].
    simpl in *.
    destruct (Ascii.compare x y) eqn:Hxy; [| |congruence].
    + apply Ascii.compare_eq_iff in Hxy. subst y.
      destruct (Ascii.compare x z) eqn:Hxz; [| discriminate | congruence].
      now apply (IH b c).
    + destruct (Ascii.compare y z) eqn:Hyz; [| |congruence].
      * apply Ascii.compare_eq_iff in Hyz. subst z. rewrite Hxy. discriminate.
      * rewrite (ascii_compare_lt_trans x y z Hxy Hyz). discriminate.
Qed.

Lemma leb_not_gt (a b : string) :
  String.leb a b = true <-> String.compare a b <> Gt.
Proof.
  unfold String.leb. destruct (String.compare a b); split; congruence.
Qed.

Lemma leb_trans (a b c : string) :
  String.leb a b = true -> String.leb b c = true -> String.leb a c = true.
Proof.
  rewrite !leb_not_gt. apply compare_not_gt_trans.
Qed.

Lemma leb_empty_inv (s : string) : String.leb s "" = true -> s = "".
Proof. destruct s; [reflexivity | discriminate]. Qed.

Lemma code_unit_order_leb (a b : string) :
  (code_unit_order a b <=? 0) = String.leb a b.
Proof.
  unfold code_unit_order, String.leb. destruct (String.compare a b); reflexivity.
Qed.

Lemma code_unit_order_total (a b : string) :
  code_unit_order a b <= 0 \/ code_unit_order b a <= 0.
Proof.
  rewrite <- !Z.leb_le, !code_unit_order_leb.
  destruct (String.leb_total a b); [now left | now right].
Qed.

Lemma code_unit_order_trans (a b c : string) :
  code_unit_order a b <= 0 -> code_unit_order b c <= 0 -> code_unit_order a c <= 0.
Proof.
  rewrite <- !Z.leb_le, !code_unit_order_leb. apply leb_trans.
Qed.

End JsFacts.

Example extname_plain : NodePath.extname "song.mp3" = ".mp3".
Proof. reflexivity. Qed.
Example extname_upper : NodePath.extname "SONG.MP3" = ".MP3".
Proof. reflexivity. Qed.
Example extname_dotfile : NodePath.extname ".mp3" = "".
Proof. reflexivity. Qed.
Example extname_last_dot : NodePath.extname "take.wav.txt" = ".txt".
Proof. reflexivity. Qed.
Example extname_trailing_dot : NodePath.extname "song.mp3." = ".".
Proof. reflexivity. Qed.
Example extname_directory : NodePath.extname "a.mp3/b" = "".
Proof. reflexivity. Qed.
Example extname_dotdot : NodePath.extname ".." = "".
Proof. reflexivity. Qed.
Example extname_trailing_slash : NodePath.extname "dir/x.flac/" = ".flac".
Proof. reflexivity. Qed.

(** ** The upload endpoint *)

Module ServerFacts.
Import Js JsFacts Server Samples.

Lemma fileFilter_cases (f : file) :
  let ext := toLowerCase (NodePath.extname (originalname f)) in
  (In ext ALLOWED_EXTENSIONS /\ fileFilter f = Ok true)
  \/ (~ In ext ALLOWED_EXTENSIONS /\ fileFilter f = Throw "File type not allowed. Use MP3, WAV, FLAC, M4A, or AAC").
Proof.
  intros ext. unfold fileFilter. fold ext.
  destruct (includes ALLOWED_EXTENSIONS ext) eqn:Hinc.
  - left. split; [now apply includes_In | reflexivity].
  - right. split; [|reflexivity].
    intros Hin. apply includes_In in Hin. congruence.
Qed.

(** C3, as the claim states it, fails: the filter lower-cases the extension
    before it looks it up, so [SONG.MP3] is accepted although its extension,
    [.MP3], is none of the five listed. *)
Lemma fileFilter_accepts_upper_case_extension :
  let f := mkFile "SONG.MP3" "audio/mpeg" [] in
  fileFilter f = Ok true
  /\ NodePath.extname (originalname f) = ".MP3"
  /\ ~ In (NodePath.extname (originalname f)) ALLOWED_EXTENSIONS.
Proof.
  cbv zeta. split; [vm_compute; reflexivity|]. split; [vm_compute; reflexivity|].
  intros Hin. apply includes_In in Hin. vm_compute in Hin. discriminate Hin.
Qed.

(** C3, amended: the file filter of the upload endpoint accepts a file if
    and only if the extension of its original name, in lower case, is one of
    [.mp3], [.wav], [.flac], [.m4a], [.aac]; any other file is rejected with
    the message "File type not allowed. Use MP3, WAV, FLAC, M4A, or AAC",
    which the endpoint answers with status 500, storing nothing. *)
Theorem fileFilter_accepts_iff_lower_case_extension_allowed (f : file) :
  let ext := toLowerCase (NodePath.extname (originalname f)) in
  (fileFilter f = Ok true <-> In ext ALLOWED_EXTENSIONS)
  /\ (~ In ext ALLOWED_EXTENSIONS ->
      fileFilter f = Throw "File type not allowed. Use MP3, WAV, FLAC, M4A, or AAC"
      /\ forall env,
           post_upload env (Some f)
           = (mkUploadResponse 500
                (Failed "File type not allowed. Use MP3, WAV, FLAC, M4A, or AAC"), None)).
Proof.
  intros ext. pose proof (fileFilter_cases f) as Hcases. cbv zeta in Hcases. fold ext in Hcases.
  destruct Hcases as [[Hin Hf] | [Hout Hf]].
  - split.
    + split; intros _; assumption.
    + intros Hout. contradiction.
  - split.
    + split; [intros Hok; rewrite Hf in Hok; discriminate Hok | intros Hin; contradiction].
    + intros _. split; [exact Hf|].
      intros env. unfold post_upload, upload_single. rewrite Hf. reflexivity.
Qed.

Lemma fileFilter_rejects_text_file :
  fileFilter (mkFile "notes.txt" "text/plain" [])
  = Throw "File type not allowed. Use MP3, WAV, FLAC, M4A, or AAC".
Proof.
  apply (proj2 (fileFilter_accepts_iff_lower_case_extension_allowed
                  (mkFile "notes.txt" "text/plain" []))).
  intros Hin. apply includes_In in Hin. vm_compute in Hin. discriminate Hin.
Defined.

Lemma docId_char (c : ascii) :
  (if Ascii.eqb (if Ascii.eqb c "/" then "_" else c) "." then "_" else
     if Ascii.eqb c "/" then "_" else c)%char
  = (if (Ascii.eqb c "/" || Ascii.eqb c ".")%bool then "_" else c)%char.
Proof.
  destruct (Ascii.eqb_spec c "/") as [->|Hslash]; [reflexivity|].
  destruct (Ascii.eqb_spec c "."); reflexivity.
Qed.

(** C6: the document identifier is a function of the stored filename: the
    filename with every ['/'] and every ['.'] replaced by ['_'], all other
    characters and the length unchanged; it is the [doc_id] the upload
    endpoint reports for the object it stored. *)
Theorem docId_replaces_every_slash_and_dot (filename : string) :
  String.length (docId filename) = String.length filename
  /\ (forall i : nat,
        String.get i (docId filename)
        = option_map (fun c => if (Ascii.eqb c "/" || Ascii.eqb c ".")%bool then "_"%char else c)
                     (String.get i filename))
  /\ forall env part message doc_id,
       body (fst (post_upload env part)) = Uploaded filename message doc_id ->
       doc_id = docId filename
       /\ exists bytes, snd (post_upload env part) = Some (filename, bytes).
Proof.
  unfold docId, replace_char. split; [|split].
  - now rewrite !map_chars_length.
  - intros i. rewrite map_chars_compose, map_chars_get.
    destruct (String.get i filename) as [c|]; simpl; [|reflexivity].
    f_equal. apply docId_char.
  - intros env part message doc_id. unfold post_upload.
    destruct (upload_single (rule env) part) as [[f|]|failure]; simpl; try discriminate.
    destruct (write env _ (buffer f)); simpl; try discriminate.
    intros Heq. injection Heq as <- _ <-. split; [reflexivity | now eexists].
Qed.

Example docId_of_upload :
  docId "uploads/1700000000000_k3x9a.mp3" = "uploads_1700000000000_k3x9a_mp3".
Proof. reflexivity. Qed.

Lemma over_limit_above (r : limit_rule) (bytes : Z) :
  MAX_FILE_SIZE < bytes -> over_limit r bytes MAX_FILE_SIZE = true.
Proof.
  intros Hlt. destruct r; simpl; [apply Z.ltb_lt | apply Z.leb_le]; lia.
Qed.

Lemma over_limit_false (r : limit_rule) (bytes : Z) :
  over_limit r bytes MAX_FILE_SIZE = false -> bytes <= MAX_FILE_SIZE.
Proof.
  destruct r; simpl; intros Hover; [apply Z.ltb_ge in Hover | apply Z.leb_gt in Hover]; lia.
Qed.

(** What multer lets through to the route handler is the request's file,
    with an allowed extension and within the limit. *)
Lemma upload_single_passes (r : limit_rule) (part : option file) (f : file) :
  upload_single r part = Ok (Some f) ->
  part = Some f /\ fileFilter f = Ok true /\ size f <= MAX_FILE_SIZE.
Proof.
  unfold upload_single. destruct part as [g|]; [|discriminate].
  destruct (fileFilter g) as [include|message] eqn:Hfilter; simpl; [|discriminate].
  destruct include; simpl.
  - destruct (over_limit r (size g) MAX_FILE_SIZE) eqn:Hover; [discriminate|].
    intros Heq. injection Heq as <-. repeat split; [assumption|].
    now apply (over_limit_false r).
  - discriminate.
Qed.

Lemma post_upload_stored (env : upload_env) (part : option file) (stored : string * list Byte.byte) :
  snd (post_upload env part) = Some stored ->
  exists f, upload_single (rule env) part = Ok (Some f) /\ snd stored = buffer f.
Proof.
  unfold post_upload.
  destruct (upload_single (rule env) part) as [[f|]|message]; simpl; try discriminate.
  destruct (write env _ (buffer f)); simpl; try discriminate.
  intros Heq. injection Heq as <-. exists f. split; reflexivity.
Qed.

Lemma over_limit_within (r : limit_rule) (bytes : Z) :
  bytes < MAX_FILE_SIZE \/ (bytes = MAX_FILE_SIZE /\ r = StrictlyLarger) ->
  over_limit r bytes MAX_FILE_SIZE = false.
Proof.
  intros [Hlt | [-> ->]].
  - destruct r; simpl; [apply Z.ltb_ge | apply Z.leb_gt]; lia.
  - simpl. apply Z.ltb_irrefl.
Qed.

(** C8: the size cap of the upload endpoint is 50 * 1024 * 1024 bytes: every
    object the endpoint writes to the bucket, where the analysis is
    triggered, is at most that long, and a longer file ends the request with
    status 500 and nothing written; a file with an allowed extension that is
    shorter gets through to the bucket, written whole, and so does one of
    exactly that length where the multipart parser compares strictly (where
    it does not, that file is answered as too large). *)
Theorem upload_enforces_MAX_FILE_SIZE (env : upload_env) (part : option file) :
  MAX_FILE_SIZE = 52428800
  /\ (forall stored,
        snd (post_upload env part) = Some stored ->
        Z.of_nat (List.length (snd stored)) <= 50 * 1024 * 1024)
  /\ (forall f,
        part = Some f -> MAX_FILE_SIZE < size f ->
        snd (post_upload env part) = None /\ status (fst (post_upload env part)) = 500)
  /\ (forall f,
        part = Some f -> fileFilter f = Ok true ->
        size f < 50 * 1024 * 1024 \/ (size f = 50 * 1024 * 1024 /\ rule env = StrictlyLarger) ->
        upload_single (rule env) part = Ok (Some f)
        /\ ((forall name, write env name (buffer f) = Finish) ->
            exists name,
              snd (post_upload env part) = Some (name, buffer f)
              /\ status (fst (post_upload env part)) = 200))
  /\ (forall f,
        part = Some f -> fileFilter f = Ok true ->
        size f = 50 * 1024 * 1024 -> rule env = ReachesLimit ->
        post_upload env part = (status_json 500 (Failed "File too large"), None)).
Proof.
  split; [reflexivity|]. split; [|split; [|split]].
  - intros stored Hstored.
    destruct (post_upload_stored env part stored Hstored) as [f [Hpass Hbytes]].
    destruct (upload_single_passes _ _ _ Hpass) as [_ [_ Hsize]].
    rewrite Hbytes. exact Hsize.
  - intros f -> Hlarge. unfold post_upload, upload_single.
    destruct (fileFilter_cases f) as [[_ ->] | [_ ->]]; simpl; [|split; reflexivity].
    rewrite (over_limit_above _ _ Hlarge). split; reflexivity.
  - intros f -> Hfilter Hsize.
    assert (Hpass : upload_single (rule env) (Some f) = Ok (Some f)).
    { unfold upload_single. rewrite Hfilter. cbn [bind negb].
      now rewrite (over_limit_within _ _ Hsize). }
    split; [exact Hpass|].
    intros Hwrite. unfold post_upload. rewrite Hpass. cbv zeta. rewrite Hwrite.
    eexists. split; reflexivity.
  - intros f -> Hfilter Hsize Hrule. unfold post_upload, upload_single.
    rewrite Hfilter, Hrule, Hsize. reflexivity.
Qed.

Lemma small_upload_doc_id :
  fst (post_upload quiet_env (Some small_upload))
  = json (Uploaded "uploads/1700000000000_k3x9a.WAV"
            "File uploaded successfully! Analysis will begin shortly."
            "uploads_1700000000000_k3x9a_WAV")
  /\ "uploads_1700000000000_k3x9a_WAV" = docId "uploads/1700000000000_k3x9a.WAV".
Proof.
  assert (Hresponse : fst (post_upload quiet_env (Some small_upload))
                      = json (Uploaded "uploads/1700000000000_k3x9a.WAV"
                                "File uploaded successfully! Analysis will begin shortly."
                                "uploads_1700000000000_k3x9a_WAV"))
    by (vm_compute; reflexivity).
  split; [exact Hresponse|].
  apply (proj2 (proj2 (docId_replaces_every_slash_and_dot "uploads/1700000000000_k3x9a.WAV"))
               quiet_env (Some small_upload)
               "File uploaded successfully! Analysis will begin shortly.").
  rewrite Hresponse. reflexivity.
Defined.

Lemma long_body_length : Z.of_nat (List.length long_body) = MAX_FILE_SIZE + 1.
Proof.
  unfold long_body. rewrite repeat_length. apply Z2Nat.id. unfold MAX_FILE_SIZE. lia.
Qed.

Lemma upload_cap_on_two_files :
  (snd (post_upload quiet_env (Some small_upload))
   = Some ("uploads/1700000000000_k3x9a.WAV", buffer small_upload)
   /\ Z.of_nat (List.length (buffer small_upload)) <= 50 * 1024 * 1024)
  /\ (MAX_FILE_SIZE < size long_upload
      /\ snd (post_upload quiet_env (Some long_upload)) = None
      /\ status (fst (post_upload quiet_env (Some long_upload))) = 500)
  /\ (fileFilter small_upload = Ok true
      /\ size small_upload < 50 * 1024 * 1024
      /\ upload_single (rule quiet_env) (Some small_upload) = Ok (Some small_upload)).
Proof.
  assert (Hstored : snd (post_upload quiet_env (Some small_upload))
                    = Some ("uploads/1700000000000_k3x9a.WAV", buffer small_upload))
    by (vm_compute; reflexivity).
  assert (Hlong : MAX_FILE_SIZE < size long_upload)
    by (unfold size, long_upload; cbn [buffer]; rewrite long_body_length; lia).
  assert (Hfilter : fileFilter small_upload = Ok true) by (vm_compute; reflexivity).
  assert (Hsmall : size small_upload < 50 * 1024 * 1024) by (vm_compute; reflexivity).
  split; [|split].
  - split; [exact Hstored|].
    exact (proj1 (proj2 (upload_enforces_MAX_FILE_SIZE quiet_env (Some small_upload))) _ Hstored).
  - split; [exact Hlong|].
    exact (proj1 (proj2 (proj2 (upload_enforces_MAX_FILE_SIZE quiet_env (Some long_upload))))
                 long_upload eq_refl Hlong).
  - split; [exact Hfilter|]. split; [exact Hsmall|].
    exact (proj1 (proj1 (proj2 (proj2 (proj2
             (upload_enforces_MAX_FILE_SIZE quiet_env (Some small_upload)))))
             small_upload eq_refl Hfilter (or_introl Hsmall))).
Defined.

(** *** [GET /api/results] *)

Section Sorting.
Context {A : Type}.
Variable compare : A -> A -> Z.

Lemma insert_perm (x : A) (l : list A) : Permutation (insert compare x l) (x :: l).
Proof.
  induction l as [|y l IH]; simpl.
  - apply Permutation_refl.
  - destruct (compare x y <=? 0).
    + apply Permutation_refl.
    + apply perm_trans with (y :: x :: l).
      * now apply perm_skip.
      * apply perm_swap.
Qed.

Lemma sort_perm (l : list A) : Permutation (sort compare l) l.
Proof.
  induction l as [|x l IH]; simpl.
  - apply perm_nil.
  - apply perm_trans with (x :: sort compare l).
    + apply insert_perm.
    + now apply perm_skip.
Qed.

Lemma sort_In (l : list A) (x : A) : In x (sort compare l) <-> In x l.
Proof.
  split; apply Permutation_in; [apply sort_perm | apply Permutation_sym, sort_perm].
Qed.

(** Two comparators that agree on the elements of a list sort it alike. *)
Lemma insert_ext (compare' : A -> A -> Z) (x : A) (l : list A) :
  (forall y, In y l -> (compare x y <=? 0) = (compare' x y <=? 0)) ->
  insert compare x l = insert compare' x l.
Proof.
  induction l as [|y l IH]; intros Hagree; simpl; [reflexivity|].
  rewrite <- (Hagree y (or_introl eq_refl)).
  destruct (compare x y <=? 0); [reflexivity|].
  f_equal. apply IH. intros z Hz. apply Hagree. now right.
Qed.

Lemma sort_ext (compare' : A -> A -> Z) (l : list A) :
  (forall x y, In x l -> In y l -> (compare x y <=? 0) = (compare' x y <=? 0)) ->
  sort compare l = sort compare' l.
Proof.
  induction l as [|x l IH]; intros Hagree; simpl; [reflexivity|].
  rewrite <- IH.
  - apply insert_ext. intros y Hy. apply Hagree; [now left | right].
    now apply (proj1 (sort_In l y)).
  - intros a b Ha Hb. apply Hagree; now right.
Qed.

(** Under a total and transitive comparator the result is in order. *)
Hypothesis total : forall a b, compare a b <= 0 \/ compare b a <= 0.
Hypothesis transitive : forall a b c, compare a b <= 0 -> compare b c <= 0 -> compare a c <= 0.

Lemma insert_sorted (x : A) (l : list A) :
  StronglySorted (fun a b => compare a b <= 0) l ->
  StronglySorted (fun a b => compare a b <= 0) (insert compare x l).
Proof.
  induction 1 as [|y l Hsorted IH Hall]; simpl.
  - repeat constructor.
  - destruct (compare x y <=? 0) eqn:Hxy.
    + apply Z.leb_le in Hxy. constructor.
      * now constructor.
      * constructor; [assumption|].
        apply Forall_forall. intros z Hz.
        apply (transitive x y z Hxy). rewrite Forall_forall in Hall. now apply Hall.
    + apply Z.leb_gt in Hxy. constructor; [assumption|].
      apply Forall_forall. intros z Hz.
      apply (Permutation_in _ (insert_perm x l)) in Hz. destruct Hz as [<-|Hz].
      * destruct (total x y); [lia | assumption].
      * rewrite Forall_forall in Hall. now apply Hall.
Qed.

Lemma sort_sorted (l : list A) :
  StronglySorted (fun a b => compare a b <= 0) (sort compare l).
Proof.
  induction l as [|x l IH]; simpl; [constructor | now apply insert_sorted].
Qed.

End Sorting.

Lemma StronglySorted_after {A : Type} (R : A -> A -> Prop) (before after : list A) (x : A) :
  StronglySorted R (before ++ x :: after)%list -> Forall (R x) after.
Proof.
  induction before as [|y before IH]; simpl; intros Hsorted.
  - now apply StronglySorted_inv in Hsorted.
  - apply IH. now apply StronglySorted_inv in Hsorted.
Qed.

Lemma StronglySorted_weaken {A : Type} (R R' : A -> A -> Prop) (l : list A) :
  (forall a b, R a b -> R' a b) -> StronglySorted R l -> StronglySorted R' l.
Proof.
  intros Himpl. induction 1 as [|x l Hsorted IH Hall]; constructor.
  - assumption.
  - revert Hall. apply Forall_impl. intros b. apply Himpl.
Qed.

Lemma sgn_nonpositive (z s : Z) : Z.sgn z = s -> (z <=? 0) = (s <=? 0).
Proof. intros <-. now destruct z. Qed.

Lemma sgn_code_unit_order (x y : string) : Z.sgn (code_unit_order x y) = code_unit_order x y.
Proof. unfold code_unit_order. now destruct (String.compare x y). Qed.

Section ApiResultsFacts.
Context {P : Type}.
Variable localeCompare : string -> string -> Z.
Variable toISOString : Timestamp -> Exc string.

Lemma by_code_units_total (a b : result P) :
  by_processed_at code_unit_order a b <= 0 \/ by_processed_at code_unit_order b a <= 0.
Proof.
  unfold by_processed_at. rewrite <- !Z.leb_le, !code_unit_order_leb.
  destruct (String.leb_total (date a) (date b)); [now right | now left].
Qed.

Lemma by_code_units_trans (a b c : result P) :
  by_processed_at code_unit_order a b <= 0 ->
  by_processed_at code_unit_order b c <= 0 ->
  by_processed_at code_unit_order a c <= 0.
Proof.
  unfold by_processed_at. rewrite <- !Z.leb_le, !code_unit_order_leb.
  intros Hba Hcb. exact (leb_trans _ _ _ Hcb Hba).
Qed.

Lemma sort_by_code_units (l : list (result P)) :
  most_recent_first (sort (by_processed_at code_unit_order) l).
Proof.
  unfold most_recent_first.
  apply StronglySorted_weaken
    with (R := fun a b => by_processed_at code_unit_order a b <= 0).
  - intros a b. unfold by_processed_at. now rewrite <- Z.leb_le, code_unit_order_leb.
  - apply sort_sorted; [apply by_code_units_total | apply by_code_units_trans].
Qed.

Lemma sort_by_localeCompare (l : list (result P)) :
  orders_by_code_units localeCompare (map date l) ->
  sort (by_processed_at localeCompare) l = sort (by_processed_at code_unit_order) l.
Proof.
  intros Hagree. apply sort_ext. intros a b Ha Hb. unfold by_processed_at.
  apply sgn_nonpositive. apply Hagree; now apply in_map.
Qed.

Lemma missing_processed_at_last (rs before after : list (result P)) (r : result P) :
  most_recent_first rs ->
  rs = (before ++ r :: after)%list ->
  result_processed_at r = None ->
  date r = "" /\ Forall (fun b => date b = "") after.
Proof.
  intros Hsorted -> Hmissing.
  assert (Hdate : date r = "") by (unfold date; now rewrite Hmissing).
  split; [assumption|].
  apply StronglySorted_after in Hsorted. revert Hsorted. apply Forall_impl.
  intros b. rewrite Hdate. apply leb_empty_inv.
Qed.

Lemma by_localeCompare_total (a b : result P) :
  consistent localeCompare ->
  by_processed_at localeCompare a b <= 0 \/ by_processed_at localeCompare b a <= 0.
Proof.
  intros [Htotal _]. unfold by_processed_at. apply Htotal.
Qed.

Lemma by_localeCompare_trans (a b c : result P) :
  consistent localeCompare ->
  by_processed_at localeCompare a b <= 0 ->
  by_processed_at localeCompare b c <= 0 ->
  by_processed_at localeCompare a c <= 0.
Proof.
  intros [_ Htrans]. unfold by_processed_at. intros Hba Hcb.
  exact (Htrans _ _ _ Hcb Hba).
Qed.

Lemma sort_by_consistent_localeCompare (l : list (result P)) :
  consistent localeCompare ->
  sorted_by_localeCompare localeCompare (sort (by_processed_at localeCompare) l).
Proof.
  intros Hconsistent. unfold sorted_by_localeCompare.
  apply (sort_sorted (by_processed_at localeCompare)).
  - intros a b. now apply by_localeCompare_total.
  - intros a b c. now apply by_localeCompare_trans.
Qed.

Lemma most_recent_first_where_code_units_agree (l : list (result P)) :
  orders_by_code_units localeCompare (map date l) ->
  most_recent_first (sort (by_processed_at localeCompare) l).
Proof.
  intros Hagree. rewrite sort_by_localeCompare by exact Hagree. apply sort_by_code_units.
Qed.


(** C10: when the fetch from the document store fails, [GET /api/results]
    answers with status 200 and the empty list; whatever the fetch does,
    the status is 200. *)
Theorem get_api_results_answers_empty_list_on_store_failure (message : string) :
  get_api_results (P := P) localeCompare toISOString (Throw message)
  = mkResultsResponse 200 []
  /\ forall get : Exc (list (document P)),
       results_status (get_api_results localeCompare toISOString get) = 200.
Proof.
  split.
  - reflexivity.
  - intros [snapshot|failure]; reflexivity.
Qed.

End ApiResultsFacts.

Lemma punctuation_first_consistent : consistent punctuation_first.
Proof.
  split; unfold punctuation_first.
  - intros a b. apply code_unit_order_total.
  - intros a b c. apply code_unit_order_trans.
Qed.

Lemma code_unit_order_consistent : consistent code_unit_order.
Proof.
  split; [apply code_unit_order_total | apply code_unit_order_trans].
Qed.

(** With the order of the code units the sample comes out most recent
    first. *)
Example sample_results_by_code_units :
  map id (results_body (get_api_results code_unit_order sample_toISOString (Ok sample_snapshot)))
  = ["uploads_3_c_flac"; "uploads_1_a_mp3"; "uploads_2_b_wav"]
  /\ most_recent_first
       (results_body (get_api_results code_unit_order sample_toISOString (Ok sample_snapshot))).
Proof.
  split; [vm_compute; reflexivity|].
  apply most_recent_first_where_code_units_agree.
  intros x y _ _. apply sgn_code_unit_order.
Qed.



End ServerFacts.

(** ** The results page *)

Module ResultsPageFacts.
Import Js JsFacts ResultsPage Samples.

Lemma free_of_append (c : ascii) (a b : string) :
  free_of c (a ++ b) = free_of c a && free_of c b.
Proof.
  induction a as [|x a IH]; simpl; [reflexivity|].
  now rewrite IH, andb_assoc.
Qed.

(** Escaped text holds no ['<']: markup starts where the text ends. *)
Lemma escape_text_free_of_lt (s : string) : free_of "<" (escape_text s) = true.
Proof.
  induction s as [|c s IH]; [reflexivity|].
  cbn [escape_text]. rewrite free_of_append, IH, andb_true_r.
  destruct (Ascii.eqb c "&"); [reflexivity|].
  destruct (Ascii.eqb c "<") eqn:Hlt; [reflexivity|].
  destruct (Ascii.eqb c ">"); [reflexivity|].
  destruct (Ascii.eqb c "160"); [reflexivity|].
  simpl. now rewrite Hlt.
Qed.

Lemma escapeHtml_free_of_lt (text : option string) : free_of "<" (escapeHtml text) = true.
Proof. destruct text; [apply escape_text_free_of_lt | reflexivity]. Qed.

Lemma append_assoc (a b c : string) : (a ++ b) ++ c = a ++ b ++ c.
Proof.
  induction a as [|x a IH]; simpl; [reflexivity | now rewrite IH].
Qed.

Lemma append_cancel (p x y : string) : p ++ x = p ++ y -> x = y.
Proof.
  induction p as [|c p IH]; simpl; intros Heq; [assumption|].
  injection Heq as Heq. now apply IH.
Qed.

(** Two strings that agree up to their first [c] agree before and after it. *)
Lemma split_at_first (c : ascii) (a b x y : string) :
  free_of c a = true -> free_of c b = true ->
  a ++ String c x = b ++ String c y -> a = b /\ x = y.
Proof.
  revert b. induction a as [|u a IH]; intros [|v b] Ha Hb Heq; simpl in *.
  - injection Heq as ->. now split.
  - injection Heq as <- _. now rewrite Ascii.eqb_refl in Hb.
  - injection Heq as -> _. now rewrite Ascii.eqb_refl in Ha.
  - injection Heq as -> Heq.
    apply andb_true_iff in Ha as [_ Ha]. apply andb_true_iff in Hb as [_ Hb].
    destruct (IH b Ha Hb Heq) as [-> ->]. now split.
Qed.

Section PageFacts.
Context {num : Type} `{JsNumber num}.
Variable toLocaleString : string -> Exc string.

(** Both cards open alike, up to the end of the file name; they part after
    the tag that closes it. *)
Lemma createErrorCard_shape (r : card num) :
  exists tail,
    createErrorCard toLocaleString r
    = card_open ++ escapeHtml (file_name (Server.result_fields r)) ++ String "<" tail
    /\ String.get 18 tail = Some "<"%char.
Proof.
  eexists. split.
  - unfold createErrorCard, card_open. do 2 f_equal. cbn. reflexivity.
  - reflexivity.
Qed.

Lemma createResultCard_shape (r : card num) :
  exists tail,
    createResultCard toLocaleString r
    = card_open ++ escapeHtml (file_name (Server.result_fields r)) ++ String "<" tail
    /\ String.get 18 tail = Some "010"%char.
Proof.
  eexists. split.
  - unfold createResultCard, card_open. do 2 f_equal. cbn. reflexivity.
  - reflexivity.
Qed.

(** An error card is never the markup of a result card. *)
Lemma cards_differ (r r' : card num) :
  createErrorCard toLocaleString r <> createResultCard toLocaleString r'.
Proof.
  destruct (createErrorCard_shape r) as [te [-> Hte]].
  destruct (createResultCard_shape r') as [tr [-> Htr]].
  intros Heq. apply append_cancel in Heq.
  apply split_at_first in Heq; try apply escapeHtml_free_of_lt.
  destruct Heq as [_ ->]. rewrite Htr in Hte. discriminate Hte.
Qed.

Lemma createErrorCard_shows_failure (r : card num) :
  shows_failure (createErrorCard toLocaleString r) (error (Server.result_fields r)).
Proof.
  exists (card_open ++ escapeHtml (file_name (Server.result_fields r))
          ++ html (lines ["</div>"; "            "])).
  exists (lines [""; "            </div>"; "            "]
          ++ timestamp_line toLocaleString "Attempted" r
          ++ lines [""; "        </div>"; "    "]).
  unfold createErrorCard, card_open. rewrite !append_assoc. do 2 f_equal.
Qed.

Lemma render_one_cases (r : card num) :
  (truthy (error (Server.result_fields r)) = true
   /\ render_one toLocaleString r = createErrorCard toLocaleString r)
  \/ (truthy (error (Server.result_fields r)) = false
      /\ render_one toLocaleString r = createResultCard toLocaleString r).
Proof.
  unfold render_one. destruct (truthy (error (Server.result_fields r))); [left | right]; now split.
Qed.

(** C5, amended: the results page draws one card per record, in order: a
    record whose [error] is a non-empty string as an error card that shows
    the escaped failure message, every other record (one without [error],
    and one whose [error] is the empty string) as a regular result card; and
    no error card is the markup of a result card. *)
Theorem renderResults_draws_error_cards_for_truthy_errors (results : list (card num)) :
  (exists cards,
     renderResults toLocaleString results = String.concat "" cards
     /\ Forall2 (drawn toLocaleString) results cards)
  /\ forall r r' : card num,
       createErrorCard toLocaleString r <> createResultCard toLocaleString r'.
Proof.
  split; [|apply cards_differ].
  exists (map (render_one toLocaleString) results). split; [reflexivity|].
  induction results as [|r results IH]; simpl; constructor; [|exact IH].
  destruct (render_one_cases r) as [[Herr ->] | [Hnone ->]].
  - left. repeat split; [assumption | apply createErrorCard_shows_failure].
  - right. now split.
Qed.

End PageFacts.

(** C5, as the claim states it, fails: a record whose [error] field is set,
    to the empty string, is drawn as a regular result card. *)
Lemma renderResults_draws_empty_error_as_result_card :
  error (Server.result_fields silent_failure) = Some ""
  /\ renderResults sample_toLocaleString [silent_failure]
     = createResultCard sample_toLocaleString silent_failure
  /\ renderResults sample_toLocaleString [silent_failure]
     <> createErrorCard sample_toLocaleString silent_failure.
Proof.
  assert (Hdrawn : renderResults sample_toLocaleString [silent_failure]
                   = createResultCard sample_toLocaleString silent_failure)
    by (vm_compute; reflexivity).
  split; [reflexivity|]. split; [exact Hdrawn|].
  rewrite Hdrawn. intros Heq. symmetry in Heq. revert Heq. apply cards_differ.
Qed.

End ResultsPageFacts.

(** ** The trigger of the analysis function *)

Module TerraformFacts.
Import Terraform.

(** What the [event_trigger] block asks of the platform: events of
    finalized objects of the bucket, and no retry. *)
Lemma audio_analysis_trigger_settings (bucket_name : string) :
  event_type (audio_analysis_trigger bucket_name) = "google.cloud.storage.object.v1.finalized"
  /\ retry (audio_analysis_trigger bucket_name) = RETRY_POLICY_DO_NOT_RETRY
  /\ event_filters (audio_analysis_trigger bucket_name) = [mkFilter "bucket" bucket_name].
Proof. repeat split. Qed.

End TerraformFacts.

(** ** The analysis pipeline *)

Module PipelineFacts.
Import Js Pipeline Samples.

Section JoinFacts.
Context {num audio : Type} {components : Components num audio}.

Lemma failure_of_In (a : audio) (t : task) (message : string) :
  failure_of a t = Some message -> In message (failures a).
Proof.
  intros Hfailed. unfold failures. apply in_flat_map. exists t. split.
  - destruct t; simpl; auto.
  - rewrite Hfailed. now left.
Qed.

(** The failure the join reports is that of one of the tasks. *)
Lemma first_failure_In (a : audio) (order : list task) (message : string) :
  first_failure a order = Some message -> In message (failures a).
Proof.
  induction order as [|t order IH]; simpl; [discriminate|].
  destruct (failure_of a t) as [m|] eqn:Hfailed; [|exact IH].
  intros Heq. injection Heq as <-. now apply (failure_of_In a t).
Qed.

Lemma first_failure_None (a : audio) (order : list task) :
  first_failure a order = None <-> forall t, In t order -> failure_of a t = None.
Proof.
  induction order as [|t order IH]; simpl.
  - split; [contradiction | reflexivity].
  - destruct (failure_of a t) as [m|] eqn:Hfailed; split.
    + discriminate.
    + intros Hall. rewrite <- Hfailed. apply Hall. now left.
    + intros Hnone t' [<-|Hin]; [assumption | now apply IH].
    + intros Hall. apply IH. intros t' Hin. apply Hall. now right.
Qed.

Lemma failures_nil (a : audio) :
  failures a = [] <-> forall t, failure_of a t = None.
Proof.
  unfold failures. cbn [flat_map app]. split.
  - intros Hnil t.
    destruct (failure_of a TempoTask) eqn:Ht; [discriminate|].
    destruct (failure_of a KeyTask) eqn:Hk; [discriminate|].
    destruct (failure_of a SpectralTask) eqn:Hs; [discriminate|].
    now destruct t.
  - intros Hall. now rewrite !Hall.
Qed.

(** Whatever the schedule, the join fails exactly when one of the tasks
    does. *)
Lemma join_fails_iff (a : audio) (order : list task) :
  first_failure a (order ++ [TempoTask; KeyTask; SpectralTask]) = None <-> failures a = [].
Proof.
  rewrite first_failure_None, failures_nil. split.
  - intros Hall t. apply Hall. apply in_or_app. right. destruct t; simpl; auto.
  - intros Hall t _. apply Hall.
Qed.

Lemma short_list_has_one (l : list string) (x y : string) :
  (List.length l <= 1)%nat -> In x l -> In y l -> x = y.
Proof.
  destruct l as [|z [|z' l]]; simpl; intros Hlen Hx Hy; try contradiction; [|lia].
  destruct Hx as [<-|[]], Hy as [<-|[]]. reflexivity.
Qed.

(** What the join and the classifier return for a decoded file: with no
    failing task the same success record under every schedule, and else a
    failure of one of the failing tasks. *)
Lemma extract_cases (a : audio) :
  (failures a = []
   /\ exists tempo key f mood,
        forall (schedule : Schedule) (name : string) (duration : num) (now : string),
          extract name a duration now = Ok (success_record name duration tempo key f mood now))
  \/ (failures a <> []
      /\ forall (schedule : Schedule) (name : string) (duration : num) (now : string),
           exists message,
             extract name a duration now = Throw message /\ In message (failures a)).
Proof.
  destruct (failures a) as [|m ms] eqn:Hfailures.
  - left. split; [reflexivity|].
    pose proof (proj1 (failures_nil a) Hfailures) as Hall.
    pose proof (Hall TempoTask) as Ht. pose proof (Hall KeyTask) as Hk.
    pose proof (Hall SpectralTask) as Hs. simpl in Ht, Hk, Hs.
    destruct (estimate_tempo a) as [[tempo regularity]|] eqn:Etempo; [|discriminate].
    destruct (estimate_key a) as [key|] eqn:Ekey; [|discriminate].
    destruct (extract_spectral a) as [f|] eqn:Espectral; [|discriminate].
    eexists tempo, key, f, _. intros schedule name duration now. unfold extract.
    rewrite (proj2 (join_fails_iff a joined) Hfailures), Etempo, Ekey, Espectral.
    reflexivity.
  - right. split; [discriminate|]. intros schedule name duration now. unfold extract.
    destruct (first_failure a (joined ++ [TempoTask; KeyTask; SpectralTask]))
      as [message|] eqn:Hjoin.
    + exists message. split; [reflexivity|].
      rewrite <- Hfailures. exact (first_failure_In a _ message Hjoin).
    + apply join_fails_iff in Hjoin. congruence.
Qed.

End JoinFacts.

Section AssemblerFacts.
Context {num audio : Type} {components : Components num audio} {schedule : Schedule}.

(** What the estimators and the classifier return for a decoded file is a
    success record, stamped [now]. *)
Lemma extract_returns (name : string) (a : audio) (duration : num) (now : string)
    (r : AnalysisResult num) :
  extract name a duration now = Ok r ->
  exists tempo key f mood, r = success_record name duration tempo key f mood now.
Proof.
  unfold extract.
  destruct (first_failure a (joined ++ [TempoTask; KeyTask; SpectralTask])); [discriminate|].
  destruct (estimate_tempo a) as [[tempo regularity]|]; simpl; [|discriminate].
  destruct (estimate_key a) as [key|]; simpl; [|discriminate].
  destruct (extract_spectral a) as [f|]; simpl; [|discriminate].
  intros Heq. injection Heq as <-. now eexists _, _, _, _.
Qed.

(** The two outcomes of the assembler. *)
Lemma analyze_cases (bytes : list Byte.byte) (name now : string) :
  (exists message, analyze bytes name now = Ok (error_record (num := num) name message now))
  \/ (exists duration tempo key f mood,
        analyze bytes name now = Ok (success_record name duration tempo key f mood now)).
Proof.
  unfold analyze.
  destruct (load bytes name) as [[a duration]|message]; simpl.
  - destruct (extract name a duration now) as [r|message] eqn:Hextract; simpl.
    + right. destruct (extract_returns _ _ _ _ _ Hextract) as (tempo & key & f & mood & ->).
      now exists duration, tempo, key, f, mood.
    + left. now eexists.
  - left. now eexists.
Qed.

(** C1: a result of the pipeline carries either the error field or the
    feature fields: the error is present exactly when none of
    [duration_seconds], [tempo_bpm], [estimated_key], [features] and
    [mood_indicators] is, and absent exactly when all five are. *)
Theorem result_has_error_or_features_never_both (bytes : list Byte.byte) (name now : string)
    (r : AnalysisResult num) :
  analyze bytes name now = Ok r ->
  has_error r = no_feature_field r /\ has_error r = negb (all_feature_fields r).
Proof.
  intros Hr.
  destruct (analyze_cases bytes name now)
    as [[message Ha] | (duration & tempo & key & f & mood & Ha)];
    rewrite Ha in Hr; injection Hr as <-; split; reflexivity.
Qed.

(** C2: for every buffer and file name the pipeline returns a result, of
    the error shape or of the success shape, and no fault gets past it; when
    the loader fails on the buffer, as on a truncated or garbage one, the
    result is the error record of that failure, without feature fields. *)
Theorem analyze_always_returns_a_result (bytes : list Byte.byte) (name now : string) :
  (exists r, analyze bytes name now = Ok r
             /\ file_name r = name /\ processed_at r = now
             /\ (has_error r = true /\ no_feature_field r = true
                 \/ has_error r = false /\ all_feature_fields r = true))
  /\ forall message,
       load bytes name = Throw message ->
       analyze bytes name now = Ok (error_record (num := num) name (describe message None) now)
       /\ error (error_record (num := num) name (describe message None) now) = Some (describe message None)
       /\ no_feature_field (error_record (num := num) name (describe message None) now) = true.
Proof.
  split.
  - destruct (analyze_cases bytes name now)
      as [[message ->] | (duration & tempo & key & f & mood & ->)];
      eexists; (split; [reflexivity|]); repeat split; [left | right]; split; reflexivity.
  - intros message Hload. unfold analyze. rewrite Hload. repeat split.
Qed.

End AssemblerFacts.

Section Runs.
Context {num audio : Type} {components : Components num audio}.


End Runs.

Example analyze_clipped :
  analyze clipped "loud.mp3" "2024-06-01T12:00:00"
  = Ok (error_record "loud.mp3" "AnalysisError: clipped input" "2024-06-01T12:00:00").
Proof. vm_compute. reflexivity. Qed.

Example analyze_tagged :
  analyze tagged "song.mp3" "2024-06-01T12:00:00"
  = Ok (success_record "song.mp3" 2 120 G (mkFeatures 7 10 0 [])
          (mkMood MediumEnergy Balanced Stable) "2024-06-01T12:00:00").
Proof. vm_compute. reflexivity. Qed.


Lemma sample_results_have_error_or_features :
  (let r := error_record (num := Z) "broken.mp3" "DecodeError: no audio stream found"
              "2024-06-01T12:00:00" in
   has_error r = no_feature_field r /\ has_error r = negb (all_feature_fields r))
  /\ (let r := success_record "song.mp3" 2 120 G (mkFeatures 7 10 0 [])
                 (mkMood MediumEnergy Balanced Stable) "2024-06-01T12:00:00" in
      has_error r = no_feature_field r /\ has_error r = negb (all_feature_fields r)).
Proof.
  split; cbv zeta.
  - apply (result_has_error_or_features_never_both garbage "broken.mp3" "2024-06-01T12:00:00").
    vm_compute. reflexivity.
  - apply (result_has_error_or_features_never_both tagged "song.mp3" "2024-06-01T12:00:00").
    vm_compute. reflexivity.
Defined.

Lemma garbage_mp3_gives_an_error_record :
  load garbage "broken.mp3" = Throw "DecodeError: no audio stream found"
  /\ analyze garbage "broken.mp3" "2024-06-01T12:00:00"
     = Ok (error_record "broken.mp3" "DecodeError: no audio stream found" "2024-06-01T12:00:00").
Proof.
  split; [reflexivity|].
  exact (proj1 (proj2 (analyze_always_returns_a_result garbage "broken.mp3" "2024-06-01T12:00:00")
                      "DecodeError: no audio stream found" eq_refl)).
Defined.

End PipelineFacts.

(** ** [path.extname] on a name that ends in an extension *)

Module NodePathFacts.
Import Js JsFacts NodePath.

Lemma code_is_char (c x : ascii) :
  (Z.of_N (N_of_ascii c) =? Z.of_N (N_of_ascii x)) = Ascii.eqb c x.
Proof.
  destruct (Ascii.eqb_spec c x) as [->|Hne].
  - apply Z.eqb_refl.
  - apply Z.eqb_neq. intros Heq. apply N2Z.inj in Heq. apply Hne.
    rewrite <- (ascii_N_embedding c), <- (ascii_N_embedding x). now rewrite Heq.
Qed.

Lemma charCodeAt_get (s : string) (i : nat) (c : ascii) :
  String.get i s = Some c -> charCodeAt s i = Z.of_N (N_of_ascii c).
Proof. unfold charCodeAt. now intros ->. Qed.

Lemma free_of_get (c : ascii) (s : string) (i : nat) (x : ascii) :
  free_of c s = true -> String.get i s = Some x -> Ascii.eqb x c = false.
Proof.
  revert i. induction s as [|y s IH]; intros i Hfree Hget; [discriminate|].
  simpl in Hfree. apply andb_true_iff in Hfree as [Hy Hs].
  destruct i as [|i]; simpl in Hget.
  - injection Hget as <-. now apply negb_true_iff.
  - now apply (IH i).
Qed.

Lemma get_in_range (s : string) (i : nat) :
  (i < String.length s)%nat -> exists c, String.get i s = Some c.
Proof.
  revert i. induction s as [|y s IH]; intros i Hlt; simpl in *; [lia|].
  destruct i as [|i]; [now exists y | apply IH; lia].
Qed.

Lemma append_length (a b : string) :
  String.length (a ++ b) = (String.length a + String.length b)%nat.
Proof.
  induction a as [|x a IH]; simpl; [reflexivity | now rewrite IH].
Qed.

Lemma get_append_right (a b : string) (j : nat) :
  String.get (String.length a + j) (a ++ b) = String.get j b.
Proof.
  rewrite Nat.add_comm. symmetry. apply String.append_correct2.
Qed.

Lemma substring_append_right (a b : string) :
  String.substring (String.length a) (String.length b) (a ++ b) = b.
Proof.
  induction a as [|x a IH]; simpl; [|exact IH].
  induction b as [|y b IHb]; simpl; [reflexivity | now rewrite IHb].
Qed.

Section Scan.
Variable path : string.

(** One turn of the loop on a character that is neither a slash nor a dot,
    before any dot was seen: only [end] is set. *)
Lemma scan_plain_char (i : nat) (c : ascii) (st : scan) (e : Z) :
  String.get i path = Some c ->
  Ascii.eqb c "/" = false -> Ascii.eqb c "." = false ->
  startDot st = -1 -> preDotState st = 0 -> startPart st = 0 ->
  (end_ st = -1 /\ e = Z.of_nat i + 1 \/ end_ st = e /\ e <> -1 /\ matchedSlash st = false) ->
  extname_scan path (S i) st = extname_scan path i (mkScan (-1) 0 e false 0).
Proof.
  intros Hget Hslash Hdot HsD Hpre Hpart Hend. cbn [extname_scan].
  rewrite (charCodeAt_get _ _ _ Hget).
  change CHAR_FORWARD_SLASH with (Z.of_N (N_of_ascii "/")).
  change CHAR_DOT with (Z.of_N (N_of_ascii ".")).
  rewrite !code_is_char, Hslash, Hdot.
  destruct st as [sd sp en ms pd]; simpl in *; subst sd pd sp.
  destruct Hend as [[-> ->] | [-> [Hne ->]]].
  - reflexivity.
  - destruct (e =? -1) eqn:He; [apply Z.eqb_eq in He; contradiction | reflexivity].
Qed.

(** Once the dot and a character before it were seen, the rest of the scan
    leaves [startDot] and [end] alone and never brings [preDotState] back
    to 0. *)
Lemma scan_after_dot (n : nat) (st : scan) :
  startDot st <> -1 -> end_ st <> -1 -> matchedSlash st = false -> preDotState st <> 0 ->
  let st' := extname_scan path n st in
  startDot st' = startDot st /\ end_ st' = end_ st /\ preDotState st' <> 0.
Proof.
  revert st. induction n as [|i IH]; intros st HsD Hend Hms Hpre; cbn [extname_scan].
  - repeat split. assumption.
  - destruct (charCodeAt path i =? CHAR_FORWARD_SLASH).
    + rewrite Hms. simpl. repeat split. assumption.
    + destruct st as [sd sp en ms pd]; simpl in *; subst ms.
      assert (Hen : (en =? -1) = false) by now apply Z.eqb_neq.
      assert (Hsd : (sd =? -1) = false) by now apply Z.eqb_neq.
      rewrite Hen. cbn [startDot startPart end_ matchedSlash preDotState].
      rewrite Hsd. cbn [negb].
      destruct (charCodeAt path i =? CHAR_DOT).
      * destruct (pd =? 1) eqn:Hpd; cbn [negb].
        -- apply (IH (mkScan sd sp en false pd)); simpl; first [assumption | reflexivity].
        -- apply (IH (mkScan sd sp en false 1)); simpl; first [assumption | reflexivity | lia].
      * apply (IH (mkScan sd sp en false (-1))); simpl; first [assumption | reflexivity | lia].
Qed.

(** The turn of the loop on the first dot met. *)
Lemma scan_first_dot (i : nat) (e : Z) :
  String.get i path = Some "."%char -> e <> -1 ->
  extname_scan path (S i) (mkScan (-1) 0 e false 0)
  = extname_scan path i (mkScan (Z.of_nat i) 0 e false 0).
Proof.
  intros Hget He. cbn [extname_scan]. rewrite (charCodeAt_get _ _ _ Hget).
  change CHAR_FORWARD_SLASH with (Z.of_N (N_of_ascii "/")).
  change CHAR_DOT with (Z.of_N (N_of_ascii ".")).
  rewrite !code_is_char. cbn [Ascii.eqb Bool.eqb andb end_].
  assert (Hen : (e =? -1) = false) by now apply Z.eqb_neq.
  rewrite Hen. reflexivity.
Qed.

(** The turn of the loop on the character before that dot. *)
Lemma scan_before_dot (i : nat) (c : ascii) (sd e : Z) :
  String.get i path = Some c -> Ascii.eqb c "/" = false -> sd <> -1 -> e <> -1 ->
  extname_scan path (S i) (mkScan sd 0 e false 0)
  = extname_scan path i (mkScan sd 0 e false (if Ascii.eqb c "." then 1 else -1)).
Proof.
  intros Hget Hc Hsd He. cbn [extname_scan]. rewrite (charCodeAt_get _ _ _ Hget).
  change CHAR_FORWARD_SLASH with (Z.of_N (N_of_ascii "/")).
  change CHAR_DOT with (Z.of_N (N_of_ascii ".")).
  rewrite !code_is_char, Hc. cbn [end_].
  assert (Hen : (e =? -1) = false) by now apply Z.eqb_neq.
  assert (Hsd' : (sd =? -1) = false) by now apply Z.eqb_neq.
  rewrite Hen. cbn [startDot startPart end_ matchedSlash preDotState].
  rewrite Hsd'. now destruct (Ascii.eqb c ".").
Qed.

(** What [extname] returns once the scan has found a dot that is neither
    the first character of its part nor the last of the path. *)
Lemma extname_of_scan (sd en : Z) :
  startDot (extname_scan path (String.length path) scan0) = sd ->
  end_ (extname_scan path (String.length path) scan0) = en ->
  preDotState (extname_scan path (String.length path) scan0) <> 0 ->
  sd <> -1 -> en <> -1 -> sd <> en - 1 ->
  extname path = slice path sd en.
Proof.
  intros Hsd Hen Hpd Hs He Hlast. unfold extname. cbv zeta. rewrite Hsd, Hen.
  apply Z.eqb_neq in Hs, He, Hpd, Hlast. rewrite Hs, He, Hpd, Hlast.
  now rewrite andb_false_r.
Qed.

End Scan.

(** The scan of an extension without dots and slashes, from the end of the
    path down to the dot. *)
Lemma scan_extension (a e : string) (d : nat) :
  free_of "/" e = true -> free_of "." e = true ->
  (d < String.length e)%nat ->
  let n := (String.length a + String.length e)%nat in
  extname_scan (a ++ e) n scan0
  = extname_scan (a ++ e) (n - S d) (mkScan (-1) 0 (Z.of_nat n) false 0).
Proof.
  intros Hslash Hdot Hd n. induction d as [|d IH].
  - replace n with (S (n - 1)) at 1 by lia.
    destruct (get_in_range e (String.length e - 1)) as [c Hc]; [lia|].
    assert (Hget : String.get (n - 1) (a ++ e) = Some c).
    { replace (n - 1)%nat with (String.length a + (String.length e - 1))%nat by lia.
      now rewrite get_append_right. }
    rewrite (scan_plain_char _ _ c scan0 (Z.of_nat n) Hget); try reflexivity.
    + eapply free_of_get; eassumption.
    + eapply free_of_get; eassumption.
    + left. split; [reflexivity | lia].
  - rewrite IH by lia.
    replace (n - S d)%nat with (S (n - S (S d))) by lia.
    destruct (get_in_range e (String.length e - S (S d))) as [c Hc]; [lia|].
    assert (Hget : String.get (n - S (S d)) (a ++ e) = Some c).
    { replace (n - S (S d))%nat
        with (String.length a + (String.length e - S (S d)))%nat by lia.
      now rewrite get_append_right. }
    rewrite (scan_plain_char _ _ c _ (Z.of_nat n) Hget); try reflexivity.
    + eapply free_of_get; eassumption.
    + eapply free_of_get; eassumption.
    + right. repeat split. lia.
Qed.

(** A path that ends in a character other than a slash, a dot, and a
    non-empty extension without dots and slashes has that extension. *)
Lemma extname_of_extension (pre : string) (c : ascii) (e : string) :
  Ascii.eqb c "/" = false ->
  e <> "" -> free_of "/" e = true -> free_of "." e = true ->
  extname (pre ++ String c (String "." e)) = String "." e.
Proof.
  intros Hc Hne Hslash Hdot.
  set (a := pre ++ String c (String "." "")).
  assert (Hpath : pre ++ String c (String "." e) = a ++ e).
  { unfold a. clear. induction pre as [|x pre IH]; simpl; [reflexivity | now rewrite IH]. }
  assert (Hlen_a : String.length a = S (S (String.length pre))).
  { unfold a. rewrite append_length. simpl. lia. }
  assert (He : (0 < String.length e)%nat) by (destruct e; [contradiction | simpl; lia]).
  rewrite Hpath.
  assert (Hget_dot : String.get (S (String.length pre)) (a ++ e) = Some "."%char).
  { rewrite <- String.append_correct1 by lia. unfold a.
    replace (S (String.length pre)) with (String.length pre + 1)%nat by lia.
    now rewrite get_append_right. }
  assert (Hget_c : String.get (String.length pre) (a ++ e) = Some c).
  { rewrite <- String.append_correct1 by lia. unfold a.
    replace (String.length pre) with (String.length pre + 0)%nat at 1 by lia.
    now rewrite get_append_right. }
  set (n := (String.length a + String.length e)%nat).
  assert (Hscan : extname_scan (a ++ e) (String.length (a ++ e)) scan0
                  = extname_scan (a ++ e) (String.length pre)
                      (mkScan (Z.of_nat (S (String.length pre))) 0 (Z.of_nat n) false
                              (if Ascii.eqb c "." then 1 else -1))).
  { rewrite append_length.
    rewrite (scan_extension a e (String.length e - 1) Hslash Hdot) by lia. fold n.
    replace (n - S (String.length e - 1))%nat with (S (S (String.length pre))) by lia.
    rewrite (scan_first_dot _ _ _ Hget_dot) by lia.
    rewrite (scan_before_dot _ _ c _ _ Hget_c Hc) by lia.
    reflexivity. }
  destruct (scan_after_dot (a ++ e) (String.length pre)
              (mkScan (Z.of_nat (S (String.length pre))) 0 (Z.of_nat n) false
                      (if Ascii.eqb c "." then 1 else -1)))
    as (Hsd & Hen & Hpd); simpl; try lia; try reflexivity.
  { destruct (Ascii.eqb c "."); lia. }
  rewrite (extname_of_scan (a ++ e) (Z.of_nat (S (String.length pre))) (Z.of_nat n));
    rewrite ?Hscan; try assumption; try lia.
  unfold slice.
  replace (Z.to_nat (Z.of_nat (S (String.length pre)))) with (String.length (pre ++ String c ""))
    by (rewrite append_length; simpl; lia).
  replace (Z.to_nat (Z.of_nat n - Z.of_nat (S (String.length pre))))
    with (String.length (String "." e)) by (simpl; lia).
  replace (a ++ e) with ((pre ++ String c "") ++ String "." e).
  - apply substring_append_right.
  - rewrite <- Hpath. clear. induction pre as [|x pre IH]; simpl; [reflexivity | now rewrite IH].
Qed.

End NodePathFacts.

(** ** More on the upload endpoint *)

Module UploadFacts.
Import Js JsFacts Server ServerRoutes Samples MoreSamples.

Lemma plain_free_of (s : string) :
  plain s = true ->
  free_of "/" s = true /\ free_of "." s = true /\ free_of "_" s = true.
Proof.
  induction s as [|c s IH]; simpl; [now repeat split|].
  unfold plain_char. rewrite !andb_true_iff. intros [[[H1 H2] H3] Hs].
  destruct (IH Hs) as (I1 & I2 & I3). rewrite H1, H2, H3, I1, I2, I3. now repeat split.
Qed.

Lemma plain_append (a b : string) : plain (a ++ b) = plain a && plain b.
Proof.
  induction a as [|c a IH]; simpl; [reflexivity | now rewrite IH, andb_assoc].
Qed.

Lemma base36_char_plain (c : ascii) : base36_char c = true -> plain_char c = true.
Proof.
  destruct c as [[] [] [] [] [] [] [] []]; vm_compute; congruence.
Qed.

Lemma base36_plain (s : string) : base36 s = true -> plain s = true.
Proof.
  induction s as [|c s IH]; simpl; [reflexivity|].
  rewrite !andb_true_iff. intros [Hc Hs]. split; [now apply base36_char_plain | now apply IH].
Qed.

Lemma lower_char_plain (c : ascii) : plain_char (lower_char c) = true -> plain_char c = true.
Proof.
  destruct c as [[] [] [] [] [] [] [] []]; vm_compute; congruence.
Qed.

Lemma lower_char_dot (c : ascii) : lower_char c = "."%char -> c = "."%char.
Proof.
  destruct c as [[] [] [] [] [] [] [] []]; vm_compute; congruence.
Qed.

Lemma toLowerCase_plain (x : string) : plain (toLowerCase x) = true -> plain x = true.
Proof.
  induction x as [|c x IH]; simpl; [reflexivity|].
  rewrite !andb_true_iff. intros [Hc Hx]. split; [now apply lower_char_plain | now apply IH].
Qed.

(** An extension the filter lets through is a dot followed by one or more
    characters, none of them a slash, a dot or an underscore. *)
Lemma allowed_extension_shape (x : string) :
  In (toLowerCase x) ALLOWED_EXTENSIONS ->
  exists e, x = String "." e /\ e <> "" /\ plain e = true.
Proof.
  intros Hin.
  assert (Hshape : exists y, toLowerCase x = String "." y /\ y <> "" /\ plain y = true).
  { simpl in Hin.
    destruct Hin as [<-|[<-|[<-|[<-|[<-|[]]]]]]; eexists; (split; [reflexivity|]);
      split; try discriminate; reflexivity. }
  destruct Hshape as (y & Hlow & Hy & Hplain).
  destruct x as [|c x]; [discriminate|]. simpl in Hlow. injection Hlow as Hc Hx.
  apply lower_char_dot in Hc. subst c. exists x. split; [reflexivity|]. split.
  - intros ->. apply Hy. now rewrite <- Hx.
  - apply toLowerCase_plain. unfold toLowerCase. now rewrite Hx.
Qed.

(** The decimal writing of an integer has digits and a sign only. *)
Lemma string_of_uint_plain (d : Decimal.uint) : plain (NilEmpty.string_of_uint d) = true.
Proof.
  induction d; simpl; try rewrite IHd; reflexivity.
Qed.

Lemma Z_to_string_plain (z : Z) : plain (Z_to_string z) = true.
Proof.
  unfold Z_to_string, NilZero.string_of_int, NilZero.string_of_uint.
  destruct (Z.to_int z) as [d|d]; destruct d; simpl;
    try reflexivity; apply string_of_uint_plain.
Qed.

(** A non-empty string ends in a character. *)
Lemma last_char (x : ascii) (s : string) (k : ascii) :
  free_of k (String x s) = true ->
  exists p c, String x s = p ++ String c "" /\ Ascii.eqb c k = false.
Proof.
  revert x. induction s as [|y s IH]; intros x Hfree.
  - exists "", x. split; [reflexivity|].
    simpl in Hfree. apply andb_true_iff in Hfree as [Hx _]. now apply negb_true_iff.
  - simpl in Hfree. apply andb_true_iff in Hfree as [_ Hfree].
    destruct (IH y Hfree) as (p & c & Heq & Hc).
    exists (String x p), c. split; [|assumption]. simpl. now rewrite <- Heq.
Qed.

Lemma post_upload_stored_name (env : upload_env) (part : option file)
    (name : string) (bytes : list Byte.byte) :
  snd (post_upload env part) = Some (name, bytes) ->
  exists f, part = Some f /\ name = stored_name env f /\ bytes = buffer f
            /\ fileFilter f = Ok true /\ size f <= MAX_FILE_SIZE
            /\ fst (post_upload env part)
               = json (Uploaded name "File uploaded successfully! Analysis will begin shortly."
                         (docId name)).
Proof.
  unfold post_upload.
  destruct (upload_single (rule env) part) as [[f|]|message] eqn:Hpass;
    cbn [snd]; try discriminate.
  destruct (ServerFacts.upload_single_passes _ _ _ Hpass) as (-> & Hfilter & Hsize).
  cbv zeta. fold (stored_name env f).
  destruct (write env (stored_name env f) (buffer f)); cbn [snd fst]; try discriminate.
  intros Heq. injection Heq as <- <-. exists f. now repeat split.
Qed.

Lemma accepted_extension (f : file) :
  fileFilter f = Ok true ->
  In (toLowerCase (NodePath.extname (originalname f))) ALLOWED_EXTENSIONS.
Proof.
  intros Hok. pose proof (ServerFacts.fileFilter_cases f) as Hcases. cbv zeta in Hcases.
  destruct Hcases as [[Hin _] | [_ Hf]]; [assumption | congruence].
Qed.

(** X1: the upload endpoint answers with status 200 exactly when it wrote
    an object to the bucket; the object then holds the bytes of the request's
    file, unchanged, under [uploads/<time>_<random><extension>], where the
    extension is that of the original name, and the response reports that
    name and its document identifier. *)
Theorem upload_answers_200_exactly_when_stored (env : upload_env) (part : option file) :
  (status (fst (post_upload env part)) = 200 <-> snd (post_upload env part) <> None)
  /\ forall name bytes,
       snd (post_upload env part) = Some (name, bytes) ->
       exists f,
         part = Some f /\ bytes = buffer f
         /\ name = "uploads/" ++ Z_to_string (now env) ++ "_" ++ randomString env
                   ++ NodePath.extname (originalname f)
         /\ body (fst (post_upload env part))
            = Uploaded name "File uploaded successfully! Analysis will begin shortly."
                (docId name).
Proof.
  split.
  - unfold post_upload.
    destruct (upload_single (rule env) part) as [[f|]|message]; simpl;
      try (split; [discriminate | congruence]).
    destruct (write env _ (buffer f)); simpl; split; try discriminate; congruence.
  - intros name bytes Hstored.
    destruct (post_upload_stored_name _ _ _ _ Hstored) as (f & -> & -> & -> & _ & _ & Hresp).
    exists f. rewrite Hresp. now repeat split.
Qed.

Lemma small_upload_answered_200 :
  snd (post_upload quiet_env (Some small_upload))
  = Some ("uploads/1700000000000_k3x9a.WAV", buffer small_upload)
  /\ exists f,
       Some small_upload = Some f /\ buffer small_upload = buffer f
       /\ "uploads/1700000000000_k3x9a.WAV"
          = "uploads/" ++ Z_to_string (now quiet_env) ++ "_" ++ randomString quiet_env
            ++ NodePath.extname (originalname f)
       /\ body (fst (post_upload quiet_env (Some small_upload)))
          = Uploaded "uploads/1700000000000_k3x9a.WAV"
              "File uploaded successfully! Analysis will begin shortly."
              (docId "uploads/1700000000000_k3x9a.WAV").
Proof.
  assert (Hstored : snd (post_upload quiet_env (Some small_upload))
                    = Some ("uploads/1700000000000_k3x9a.WAV", buffer small_upload))
    by (vm_compute; reflexivity).
  split; [exact Hstored|].
  exact (proj2 (upload_answers_200_exactly_when_stored quiet_env (Some small_upload))
               _ _ Hstored).
Defined.

Lemma stored_name_split (env : upload_env) (f : file) :
  base36 (randomString env) = true ->
  fileFilter f = Ok true ->
  exists pre c e,
    stored_name env f = pre ++ String c (String "." e)
    /\ NodePath.extname (originalname f) = String "." e
    /\ Ascii.eqb c "/" = false /\ e <> "" /\ plain e = true.
Proof.
  intros Hrandom Hok.
  destruct (allowed_extension_shape _ (accepted_extension f Hok)) as (e & Hext & Hne & Hplain).
  assert (Hfree : free_of "/" (String "_" (randomString env)) = true).
  { simpl. now destruct (plain_free_of _ (base36_plain _ Hrandom)) as (-> & _). }
  destruct (last_char _ _ _ Hfree) as (p & c & Hlast & Hc).
  exists ("uploads/" ++ Z_to_string (now env) ++ p), c, e.
  repeat split; try assumption.
  unfold stored_name. rewrite Hext.
  change ("_" ++ randomString env ++ String "." e)
    with (String "_" (randomString env) ++ String "." e).
  change ("uploads/" ++ Z_to_string (now env) ++ String "_" (randomString env) ++ String "." e)
    with ("uploads/" ++ (Z_to_string (now env) ++ (String "_" (randomString env) ++ String "." e))).
  rewrite Hlast, !ResultsPageFacts.append_assoc. reflexivity.
Qed.

(** X2: the name an upload is stored under has the extension of the
    uploaded file's original name, in the same case, and that extension is
    one the filter allows; the random part of the name is in base 36, as
    [Math.random().toString(36)] writes it. *)
Theorem stored_name_keeps_the_extension (env : upload_env) (part : option file)
    (name : string) (bytes : list Byte.byte) :
  base36 (randomString env) = true ->
  snd (post_upload env part) = Some (name, bytes) ->
  exists f,
    part = Some f
    /\ NodePath.extname name = NodePath.extname (originalname f)
    /\ In (toLowerCase (NodePath.extname name)) ALLOWED_EXTENSIONS.
Proof.
  intros Hrandom Hstored.
  destruct (post_upload_stored_name _ _ _ _ Hstored) as (f & -> & -> & _ & Hok & _).
  exists f. split; [reflexivity|].
  destruct (stored_name_split env f Hrandom Hok) as (pre & c & e & -> & Hext & Hc & Hne & Hplain).
  destruct (plain_free_of _ Hplain) as (Hslash & Hdot & _).
  rewrite (NodePathFacts.extname_of_extension pre c e Hc Hne Hslash Hdot), <- Hext.
  split; [reflexivity | now apply accepted_extension].
Qed.

Lemma small_upload_keeps_WAV :
  exists f,
    Some small_upload = Some f
    /\ NodePath.extname "uploads/1700000000000_k3x9a.WAV" = NodePath.extname (originalname f)
    /\ In (toLowerCase (NodePath.extname "uploads/1700000000000_k3x9a.WAV")) ALLOWED_EXTENSIONS.
Proof.
  apply (stored_name_keeps_the_extension quiet_env (Some small_upload)
           "uploads/1700000000000_k3x9a.WAV" (buffer small_upload)).
  - vm_compute. reflexivity.
  - vm_compute. reflexivity.
Defined.

Lemma docId_append (a b : string) : docId (a ++ b) = docId a ++ docId b.
Proof.
  induction a as [|c a IH]; [reflexivity|].
  change (docId (String c a ++ b)) with (docId (String c "") ++ docId (a ++ b)).
  rewrite IH. reflexivity.
Qed.

Lemma docId_plain (s : string) : plain s = true -> docId s = s.
Proof.
  induction s as [|c s IH]; [reflexivity|]. simpl plain. rewrite andb_true_iff.
  intros [Hc Hs]. change (docId (String c s)) with (docId (String c "") ++ docId s).
  rewrite (IH Hs). unfold plain_char in Hc. rewrite !andb_true_iff, !negb_true_iff in Hc.
  destruct Hc as [[H1 H2] _]. unfold docId, replace_char. simpl. rewrite H1, H2. reflexivity.
Qed.

Lemma docId_free (s : string) : free_of "/" (docId s) = true /\ free_of "." (docId s) = true.
Proof.
  induction s as [|c s [IH1 IH2]]; [now split|].
  change (docId (String c s)) with (docId (String c "") ++ docId s).
  rewrite !ResultsPageFacts.free_of_append, IH1, IH2, !andb_true_r.
  unfold docId, replace_char. simpl.
  destruct (Ascii.eqb_spec c "/") as [->|Hslash]; [now split|].
  destruct (Ascii.eqb_spec c ".") as [->|Hdot]; [now split|].
  simpl. apply Ascii.eqb_neq in Hslash, Hdot. rewrite Hslash, Hdot. now split.
Qed.

(** X3: a document identifier holds no ['/'] and no ['.'], so it is one path
    segment; deriving it again changes nothing, and the identifier of a
    concatenation is the concatenation of the identifiers. *)
Theorem docId_is_one_segment (a b : string) :
  free_of "/" (docId a) = true
  /\ free_of "." (docId a) = true
  /\ docId (docId a) = docId a
  /\ docId (a ++ b) = docId a ++ docId b.
Proof.
  destruct (docId_free a) as [Hslash Hdot]. repeat split; try assumption.
  - clear. induction a as [|c a IH]; [reflexivity|].
    change (docId (String c a)) with (docId (String c "") ++ docId a).
    rewrite docId_append, IH. f_equal.
    unfold docId, replace_char. simpl.
    destruct (Ascii.eqb_spec c "/") as [->|Hslash]; [reflexivity|].
    destruct (Ascii.eqb_spec c ".") as [->|Hdot]; [reflexivity|].
    simpl. apply Ascii.eqb_neq in Hslash, Hdot. now rewrite Hslash, Hdot.
  - apply docId_append.
Qed.

Lemma docId_stored_name (env : upload_env) (f : file) (e : string) :
  base36 (randomString env) = true ->
  NodePath.extname (originalname f) = String "." e -> plain e = true ->
  docId (stored_name env f)
  = "uploads_" ++ Z_to_string (now env) ++ String "_" (randomString env ++ String "_" e).
Proof.
  intros Hrandom Hext Hplain. unfold stored_name. rewrite Hext.
  rewrite !docId_append.
  rewrite (docId_plain _ (Z_to_string_plain (now env))).
  rewrite (docId_plain _ (base36_plain _ Hrandom)).
  change (docId (String "." e)) with (docId "." ++ docId e).
  rewrite (docId_plain _ Hplain). reflexivity.
Qed.

(** X4: two stored objects with different names have different document
    identifiers, although [docId] maps ['/'], ['.'] and ['_'] to one
    character: the random parts of the names are in base 36. *)
Theorem stored_names_have_their_own_docId (env1 env2 : upload_env) (part1 part2 : option file)
    (name1 name2 : string) (bytes1 bytes2 : list Byte.byte) :
  base36 (randomString env1) = true ->
  base36 (randomString env2) = true ->
  snd (post_upload env1 part1) = Some (name1, bytes1) ->
  snd (post_upload env2 part2) = Some (name2, bytes2) ->
  name1 <> name2 ->
  docId name1 <> docId name2.
Proof.
  intros Hr1 Hr2 Hs1 Hs2 Hne Heq. apply Hne.
  destruct (post_upload_stored_name _ _ _ _ Hs1) as (f1 & _ & -> & _ & Hok1 & _).
  destruct (post_upload_stored_name _ _ _ _ Hs2) as (f2 & _ & -> & _ & Hok2 & _).
  destruct (allowed_extension_shape _ (accepted_extension f1 Hok1)) as (e1 & Hext1 & _ & Hp1).
  destruct (allowed_extension_shape _ (accepted_extension f2 Hok2)) as (e2 & Hext2 & _ & Hp2).
  rewrite (docId_stored_name env1 f1 e1 Hr1 Hext1 Hp1) in Heq.
  rewrite (docId_stored_name env2 f2 e2 Hr2 Hext2 Hp2) in Heq.
  apply ResultsPageFacts.append_cancel in Heq.
  apply (ResultsPageFacts.split_at_first "_") in Heq;
    try (apply plain_free_of, Z_to_string_plain).
  destruct Heq as [Htime Hrest].
  apply (ResultsPageFacts.split_at_first "_") in Hrest;
    try (apply plain_free_of, base36_plain; assumption).
  destruct Hrest as [Hrandom He].
  unfold stored_name. rewrite Hext1, Hext2, Htime, Hrandom, He. reflexivity.
Qed.

Lemma two_uploads_two_docIds :
  docId "uploads/1700000000000_k3x9a.WAV" <> docId "uploads/1700000000001_0z.WAV".
Proof.
  apply (stored_names_have_their_own_docId quiet_env second_env
           (Some small_upload) (Some small_upload) _ _
           (buffer small_upload) (buffer small_upload)).
  - vm_compute. reflexivity.
  - vm_compute. reflexivity.
  - vm_compute. reflexivity.
  - vm_compute. reflexivity.
  - intros Heq. vm_compute in Heq. discriminate Heq.
Defined.

End UploadFacts.

(** ** More on the result routes *)

Module ResultRoutesFacts.
Import Js JsFacts Server ServerRoutes Samples MoreSamples.

Section Listing.
Context {P : Type}.
Variable localeCompare : string -> string -> Z.
Variable toISOString : Timestamp -> Exc string.

(** What [process] pushes for a document. *)
Lemma process_Some (d : document P) (r : result P) :
  process toISOString d = Some r <->
  exists dat,
    data d = Ok dat
    /\ converted toISOString (processed_at dat) = Ok (result_processed_at r)
    /\ id r = spread_id d dat /\ result_fields r = fields dat.
Proof.
  unfold process, converted. split.
  - destruct (data d) as [dat|message]; simpl; [|discriminate].
    intros Heq. exists dat. split; [reflexivity|].
    destruct (processed_at dat) as [[s|t]|]; simpl in *.
    + injection Heq as <-. now repeat split.
    + destruct (toISOString t) as [s|failure]; simpl in *; [|discriminate].
      injection Heq as <-. now repeat split.
    + injection Heq as <-. now repeat split.
  - intros (dat & -> & Hconv & Hid & Hfields). simpl.
    destruct r as [rid rat rf]. simpl in *. subst rid rf.
    destruct (processed_at dat) as [[s|t]|]; simpl in *.
    + now injection Hconv as <-.
    + destruct (toISOString t) as [s|failure]; simpl in *; [|discriminate].
      now injection Hconv as <-.
    + now injection Hconv as <-.
Qed.

Lemma forEach_In (snapshot : list (document P)) (r : result P) :
  In r (forEach toISOString snapshot) <->
  exists d, In d snapshot /\ process toISOString d = Some r.
Proof.
  induction snapshot as [|d snapshot IH]; simpl.
  - split; [contradiction | now intros (d & [] & _)].
  - destruct (process toISOString d) as [r'|] eqn:Hd; simpl; rewrite ?IH; split.
    + intros [<-|(d' & Hin & Hr)]; [exists d | exists d']; auto.
    + intros (d' & [<-|Hin] & Hr); [left; congruence | right; now exists d'].
    + intros (d' & Hin & Hr). exists d'. auto.
    + intros (d' & [<-|Hin] & Hr); [congruence | now exists d'].
Qed.

Lemma forEach_length (snapshot : list (document P)) :
  (List.length (forEach toISOString snapshot) <= List.length snapshot)%nat.
Proof.
  induction snapshot as [|d snapshot IH]; simpl; [lia|].
  destruct (process toISOString d); simpl; lia.
Qed.

Lemma results_In (snapshot : list (document P)) (r : result P) :
  In r (results_body (get_api_results localeCompare toISOString (Ok snapshot))) <->
  exists d dat,
    In d snapshot /\ data d = Ok dat
    /\ converted toISOString (processed_at dat) = Ok (result_processed_at r)
    /\ id r = spread_id d dat /\ result_fields r = fields dat.
Proof.
  simpl results_body. rewrite ServerFacts.sort_In, forEach_In. split.
  - intros (d & Hin & Hr). apply process_Some in Hr as (dat & Hdat).
    now exists d, dat.
  - intros (d & dat & Hin & Hdat). exists d. split; [assumption|].
    apply process_Some. now exists dat.
Qed.

(** X5: whatever order [localeCompare] gives, the list of
    [GET /api/results] holds each stored document that could be processed
    once and nothing else: a document is listed exactly when its data can be
    read and its [processed_at] (missing, a string or a [Timestamp]), if it is
    a [Timestamp], can be written as an ISO string; it is listed with its
    other fields untouched, under the identifier of the document, or under
    the stored field named [id] if the data has one. *)
Theorem get_api_results_lists_what_can_be_processed (snapshot : list (document P)) :
  let rs := results_body (get_api_results localeCompare toISOString (Ok snapshot)) in
  Permutation rs (forEach toISOString snapshot)
  /\ (forall r,
        In r rs <->
        exists d dat,
          In d snapshot /\ data d = Ok dat
          /\ converted toISOString (processed_at dat) = Ok (result_processed_at r)
          /\ id r = match own_id dat with
                    | Some stored => stored
                    | None => doc_id d
                    end
          /\ result_fields r = fields dat)
  /\ (List.length rs <= List.length snapshot)%nat.
Proof.
  cbv zeta. split; [|split].
  - apply ServerFacts.sort_perm.
  - apply results_In.
  - simpl results_body.
    rewrite (Permutation_length (ServerFacts.sort_perm _ _)). apply forEach_length.
Qed.

(** Inserting a record among records of other dates or after none of its
    own date. *)
Lemma filter_insert (k : string) (x : result P) (l : list (result P)) :
  (forall s, localeCompare s s = 0) ->
  filter (fun r => (date r =? k)%string) (insert (by_processed_at localeCompare) x l)
  = filter (fun r => (date r =? k)%string) (x :: l).
Proof.
  intros Hrefl. induction l as [|y l IH]; [reflexivity|].
  cbn [insert]. destruct (by_processed_at localeCompare x y <=? 0) eqn:Hxy; [reflexivity|].
  cbn [filter] in *. rewrite IH.
  destruct (String.eqb_spec (date x) k) as [Hx|Hx];
    destruct (String.eqb_spec (date y) k) as [Hy|Hy]; try reflexivity.
  exfalso. apply Z.leb_gt in Hxy. unfold by_processed_at in Hxy.
  rewrite Hx, Hy, Hrefl in Hxy. lia.
Qed.

(** X6: records with the same date (a missing [processed_at] and an empty
    one count as the same) come out of [GET /api/results] in the order the
    snapshot holds them; [localeCompare] of a string with itself is 0. *)
Theorem get_api_results_keeps_the_order_of_equal_dates (snapshot : list (document P))
    (k : string) :
  (forall s, localeCompare s s = 0) ->
  filter (fun r => (date r =? k)%string)
         (results_body (get_api_results localeCompare toISOString (Ok snapshot)))
  = filter (fun r => (date r =? k)%string) (forEach toISOString snapshot).
Proof.
  intros Hrefl. simpl results_body.
  induction (forEach toISOString snapshot) as [|x l IH]; [reflexivity|].
  cbn [sort]. rewrite (filter_insert k x _ Hrefl). cbn [filter]. now rewrite IH.
Qed.

(** What [doc(docId).get()] finds in a collection whose identifiers are
    distinct. *)
Lemma doc_of_In (collection : list (document P)) (d : document P) :
  NoDup (map doc_id collection) -> In d collection ->
  doc_of collection (doc_id d) = Some d.
Proof.
  unfold doc_of. induction collection as [|x collection IH]; intros Hnodup Hin; [contradiction|].
  simpl in Hnodup. apply NoDup_cons_iff in Hnodup as [Hfresh Hnodup].
  simpl. destruct Hin as [->|Hin].
  - now rewrite String.eqb_refl.
  - destruct (String.eqb_spec (doc_id x) (doc_id d)) as [Heq|Hne].
    + exfalso. apply Hfresh. rewrite Heq. now apply in_map.
    + now apply IH.
Qed.

Lemma doc_of_absent (collection : list (document P)) (docId : string) :
  ~ In docId (map doc_id collection) -> doc_of collection docId = None.
Proof.
  unfold doc_of. induction collection as [|x collection IH]; intros Hout; [reflexivity|].
  simpl in *. destruct (String.eqb_spec (doc_id x) docId) as [Heq|Hne].
  - exfalso. apply Hout. now left.
  - apply IH. intros Hin. apply Hout. now right.
Qed.


End Listing.

Lemma string_compare_refl (s : string) : String.compare s s = Eq.
Proof.
  induction s as [|c s IH]; simpl; [reflexivity|].
  unfold Ascii.compare. now rewrite N.compare_refl.
Qed.

Lemma code_unit_order_refl (s : string) : code_unit_order s s = 0.
Proof. unfold code_unit_order. now rewrite string_compare_refl. Qed.

Lemma undated_results_keep_their_order :
  map id (results_body (get_api_results code_unit_order sample_toISOString (Ok undated_snapshot)))
  = ["dated"; "first"; "second"]
  /\ filter (fun r => (date r =? "")%string)
        (results_body (get_api_results code_unit_order sample_toISOString (Ok undated_snapshot)))
     = filter (fun r => (date r =? "")%string) (forEach sample_toISOString undated_snapshot).
Proof.
  split; [vm_compute; reflexivity|].
  apply (get_api_results_keeps_the_order_of_equal_dates code_unit_order sample_toISOString
           undated_snapshot "").
  apply code_unit_order_refl.
Defined.


End ResultRoutesFacts.

(** ** The deployment *)

Module DeploymentFacts.
Import Js Terraform Deployment ServerRoutes.

(** X8: deployed by this configuration, with a non-empty [var.bucket_name],
    the web application uploads to the bucket whose events trigger the
    analysis function; and the bucket the server falls back to without
    [BUCKET_NAME] is the default of [var.bucket_name]. *)
Theorem uploads_go_to_the_watched_bucket (bucket_name project_id : string) :
  bucket_name <> "" ->
  watched_bucket (audio_analysis_trigger bucket_name)
  = Some (BUCKET_NAME (process_env (webapp_env bucket_name project_id)))
  /\ BUCKET_NAME (process_env []) = default_bucket_name.
Proof.
  intros Hne. split; [|reflexivity].
  unfold BUCKET_NAME, env_or, watched_bucket. simpl.
  destruct (String.eqb_spec bucket_name ""); [contradiction | reflexivity].
Qed.

Lemma default_uploads_go_to_the_watched_bucket :
  watched_bucket (audio_analysis_trigger default_bucket_name)
  = Some (BUCKET_NAME (process_env (webapp_env default_bucket_name default_project_id)))
  /\ BUCKET_NAME (process_env []) = default_bucket_name.
Proof.
  apply (uploads_go_to_the_watched_bucket default_bucket_name default_project_id).
  discriminate.
Defined.

End DeploymentFacts.

(** ** More on the results page *)

Module ResultsLoaderFacts.
Import Js JsFacts ResultsPage ResultsLoader Samples MoreSamples.

Lemma escape_text_free_of_gt (s : string) : free_of ">" (escape_text s) = true.
Proof.
  induction s as [|c s IH]; [reflexivity|].
  cbn [escape_text]. rewrite ResultsPageFacts.free_of_append, IH, andb_true_r.
  destruct (Ascii.eqb c "&"); [reflexivity|].
  destruct (Ascii.eqb c "<"); [reflexivity|].
  destruct (Ascii.eqb c ">") eqn:Hgt; [reflexivity|].
  destruct (Ascii.eqb c "160"); [reflexivity|].
  simpl. now rewrite Hgt.
Qed.

Lemma escapeHtml_free_of_angle_brackets (text : option string) :
  free_of "<" (escapeHtml text) = true /\ free_of ">" (escapeHtml text) = true.
Proof.
  destruct text as [s|]; simpl.
  - split; [apply ResultsPageFacts.escape_text_free_of_lt | apply escape_text_free_of_gt].
  - now split.
Qed.

(** X9: escaped text holds no ['<'] and no ['>']: a file name or a failure
    message cannot open or close a tag in a card. *)
Theorem escapeHtml_never_writes_angle_brackets (text : option string) :
  free_of "<" (escapeHtml text) = true /\ free_of ">" (escapeHtml text) = true.
Proof.
  destruct text as [s|]; simpl.
  - split; [apply ResultsPageFacts.escape_text_free_of_lt | apply escape_text_free_of_gt].
  - now split.
Qed.

(** What one character is written as starts a text in one way only. *)
Lemma escape_text_head (c1 c2 : ascii) (s1 s2 : string) :
  escape_text (String c1 s1) = escape_text (String c2 s2) ->
  c1 = c2 /\ escape_text s1 = escape_text s2.
Proof.
  cbn [escape_text].
  destruct (Ascii.eqb_spec c1 "&") as [->|H1]; destruct (Ascii.eqb_spec c2 "&") as [->|H2];
    [simpl; intros Heq; injection Heq; auto | | |].
  1: { destruct (Ascii.eqb_spec c2 "<") as [->|]; [discriminate|].
       destruct (Ascii.eqb_spec c2 ">") as [->|]; [discriminate|].
       destruct (Ascii.eqb_spec c2 "160") as [->|]; [discriminate|].
       simpl. intros Heq. injection Heq as Hc _. congruence. }
  1: { destruct (Ascii.eqb_spec c1 "<") as [->|]; [discriminate|].
       destruct (Ascii.eqb_spec c1 ">") as [->|]; [discriminate|].
       destruct (Ascii.eqb_spec c1 "160") as [->|]; [discriminate|].
       simpl. intros Heq. injection Heq as Hc _. congruence. }
  destruct (Ascii.eqb_spec c1 "<") as [->|H1l]; destruct (Ascii.eqb_spec c2 "<") as [->|H2l];
    [simpl; intros Heq; injection Heq; auto | | |].
  1: { destruct (Ascii.eqb_spec c2 ">") as [->|]; [discriminate|].
       destruct (Ascii.eqb_spec c2 "160") as [->|]; [discriminate|].
       simpl. intros Heq. injection Heq as Hc _. congruence. }
  1: { destruct (Ascii.eqb_spec c1 ">") as [->|]; [discriminate|].
       destruct (Ascii.eqb_spec c1 "160") as [->|]; [discriminate|].
       simpl. intros Heq. injection Heq as Hc _. congruence. }
  destruct (Ascii.eqb_spec c1 ">") as [->|H1g]; destruct (Ascii.eqb_spec c2 ">") as [->|H2g];
    [simpl; intros Heq; injection Heq; auto | | |].
  1: { destruct (Ascii.eqb_spec c2 "160") as [->|]; [discriminate|].
       simpl. intros Heq. injection Heq as Hc _. congruence. }
  1: { destruct (Ascii.eqb_spec c1 "160") as [->|]; [discriminate|].
       simpl. intros Heq. injection Heq as Hc _. congruence. }
  destruct (Ascii.eqb_spec c1 "160") as [->|H1n]; destruct (Ascii.eqb_spec c2 "160") as [->|H2n];
    simpl; intros Heq; injection Heq; auto; congruence.
Qed.

Lemma escape_text_injective (x y : string) : escape_text x = escape_text y -> x = y.
Proof.
  revert y. induction x as [|c x IH]; intros [|d y] Heq.
  - reflexivity.
  - exfalso. cbn [escape_text] in Heq.
    destruct (Ascii.eqb d "&"), (Ascii.eqb d "<"), (Ascii.eqb d ">"), (Ascii.eqb d "160");
      discriminate Heq.
  - exfalso. cbn [escape_text] in Heq.
    destruct (Ascii.eqb c "&"), (Ascii.eqb c "<"), (Ascii.eqb c ">"), (Ascii.eqb c "160");
      discriminate Heq.
  - destruct (escape_text_head _ _ _ _ Heq) as [-> Hrest]. f_equal. now apply IH.
Qed.

(** X10: different texts are written differently: escaping loses nothing
    of a file name or a message. *)
Theorem escape_text_tells_texts_apart (x y : string) :
  x <> y -> escape_text x <> escape_text y.
Proof.
  intros Hne Heq. apply Hne. now apply escape_text_injective.
Qed.

Lemma escaped_entity_is_told_apart :
  escape_text "a<b" <> escape_text "a&lt;b".
Proof.
  apply (escape_text_tells_texts_apart "a<b" "a&lt;b"). discriminate.
Defined.

Lemma count_char_append (c : ascii) (a b : string) :
  count_char c (a ++ b) = (count_char c a + count_char c b)%nat.
Proof.
  induction a as [|x a IH]; simpl; [reflexivity | rewrite IH; lia].
Qed.

Lemma count_char_free (c : ascii) (s : string) : free_of c s = true -> count_char c s = O.
Proof.
  induction s as [|x s IH]; simpl; [reflexivity|].
  rewrite andb_true_iff, negb_true_iff. intros [-> Hs]. now rewrite IH.
Qed.

Section LoaderFacts.
Context {num : Type} `{JsNumber num}.
Variable toLocaleString : string -> Exc string.

(** X11: the number of tags an error card opens and closes depends on
    nothing but [processed_at]: the file name and the failure message add
    none. *)
Theorem createErrorCard_tags_do_not_depend_on_the_texts
    (id1 id2 : string) (at_ : option string) (a1 a2 : analysis num) :
  count_char "<" (createErrorCard toLocaleString (Server.mkResult id1 at_ a1))
  = count_char "<" (createErrorCard toLocaleString (Server.mkResult id2 at_ a2))
  /\ count_char ">" (createErrorCard toLocaleString (Server.mkResult id1 at_ a1))
     = count_char ">" (createErrorCard toLocaleString (Server.mkResult id2 at_ a2)).
Proof.
  unfold createErrorCard, timestamp_line. cbn [Server.result_fields Server.result_processed_at].
  rewrite !count_char_append.
  destruct (escapeHtml_free_of_angle_brackets (file_name a1)) as [L1 G1].
  destruct (escapeHtml_free_of_angle_brackets (file_name a2)) as [L2 G2].
  destruct (escapeHtml_free_of_angle_brackets (error a1)) as [L3 G3].
  destruct (escapeHtml_free_of_angle_brackets (error a2)) as [L4 G4].
  rewrite !(count_char_free _ _ L1), !(count_char_free _ _ L2), !(count_char_free _ _ L3),
          !(count_char_free _ _ L4), !(count_char_free _ _ G1), !(count_char_free _ _ G2),
          !(count_char_free _ _ G3), !(count_char_free _ _ G4).
  split; reflexivity.
Qed.

Lemma loadResults_step (fetched : Exc (list (card num))) (p : page) :
  display (loadingContainer (loadResults toLocaleString fetched p)) = "none"
  /\ emptyContainer (loadResults toLocaleString fetched p)
     = (if received_nothing fetched then set_display "block" (emptyContainer p)
        else emptyContainer p)
  /\ (drew_something fetched = false ->
      resultsContainer (loadResults toLocaleString fetched p) = resultsContainer p)
  /\ (drew_something fetched = true ->
      display (resultsContainer (loadResults toLocaleString fetched p)) = "grid"
      \/ display (resultsContainer (loadResults toLocaleString fetched p)) = "block").
Proof.
  unfold loadResults, drew_something.
  destruct fetched as [[|r data]|message]; simpl; repeat split; auto; discriminate.
Qed.

(** X12: the first load and the refreshes after it hide the loading notice
    and never hide anything else: the empty notice is shown once a load
    received the empty list and stays shown, and the results container keeps
    its cards, and stays visible, through every later load that receives the
    empty list. *)
Theorem refreshes_never_hide_what_was_shown (outcomes : list (Exc (list (card num))))
    (p : page) :
  let p' := refreshes toLocaleString outcomes p in
  (outcomes <> [] -> display (loadingContainer p') = "none")
  /\ emptyContainer p'
     = (if existsb received_nothing outcomes then set_display "block" (emptyContainer p)
        else emptyContainer p)
  /\ (existsb drew_something outcomes = false -> resultsContainer p' = resultsContainer p)
  /\ (existsb drew_something outcomes = true ->
      display (resultsContainer p') = "grid" \/ display (resultsContainer p') = "block").
Proof.
  cbv zeta. revert p. induction outcomes as [|o outcomes IH]; intros p.
  - simpl. repeat split; try discriminate. congruence.
  - cbn [refreshes fold_left existsb].
    fold (refreshes toLocaleString outcomes (loadResults toLocaleString o p)).
    destruct (IH (loadResults toLocaleString o p)) as (Hload & Hempty & Hkept & Hshown).
    destruct (loadResults_step o p) as (Sload & Sempty & Skept & Sshown).
    repeat split.
    + intros _. destruct outcomes as [|o' outcomes]; [exact Sload | apply Hload; discriminate].
    + rewrite Hempty, Sempty.
      destruct (received_nothing o), (existsb received_nothing outcomes); reflexivity.
    + intros Hnone. apply orb_false_iff in Hnone as [Ho Hos].
      rewrite (Hkept Hos). now apply Skept.
    + intros Hsome. destruct (existsb drew_something outcomes) eqn:Hos.
      * now apply Hshown.
      * rewrite (Hkept eq_refl). apply Sshown. now rewrite orb_false_r in Hsome.
Qed.

End LoaderFacts.

Lemma empty_refresh_keeps_the_cards :
  resultsContainer (refreshes sample_toLocaleString [Ok []; Ok []] drawn_page)
  = resultsContainer drawn_page
  /\ display (resultsContainer drawn_page) = "grid"
  /\ display (emptyContainer (refreshes sample_toLocaleString [Ok []; Ok []] drawn_page)) = "block".
Proof.
  split; [|split; vm_compute; reflexivity].
  apply (proj1 (proj2 (proj2 (refreshes_never_hide_what_was_shown sample_toLocaleString
                                [Ok []; Ok []] drawn_page)))).
  reflexivity.
Defined.

End ResultsLoaderFacts.

(** ** The upload page *)

Module UploadPageFacts.
Import Js Server UploadPage Samples MoreSamples.

Section HandlerFacts.
Variable formatBytes : Z -> string.

(** A click that is answered before anything else happens on the page:
    the listener up to its [await], then its rest. *)
Lemma click_upload_begin_finish (fetched : Exc fetch_response) (s : ui) :
  selectedFile s <> None ->
  click_upload fetched s = finish_upload fetched (begin_upload s).
Proof.
  intros Hfile. unfold click_upload, finish_upload.
  destruct (selectedFile s) eqn:Hsel; [|congruence].
  destruct fetched as [[[] d]|failure]; simpl; now rewrite ?Hsel.
Qed.

Lemma listen_selected (e : event) (s : ui) :
  selectedFile s <> None -> selectedFile (listen formatBytes e s) <> None.
Proof.
  intros Hfile. destruct e as [files| | |files| |fetched]; simpl; try assumption;
    destruct files; simpl; try assumption; discriminate.
Qed.

Lemma listen_keeps (e : event) (s : ui) :
  spinner_show (listen formatBytes e s) = spinner_show s
  /\ redirects (listen formatBytes e s) = redirects s
  /\ (uploadBtn_disabled (listen formatBytes e s) = false ->
      selectedFile (listen formatBytes e s) = None ->
      uploadBtn_disabled s = false /\ selectedFile s = None).
Proof.
  destruct e as [files| | |files| |fetched]; simpl; auto;
    destruct files; simpl; repeat split; auto; discriminate.
Qed.

Lemma finish_upload_keeps (fetched : Exc fetch_response) (s : ui) :
  selectedFile (finish_upload fetched s) = selectedFile s
  /\ spinner_show (finish_upload fetched s) = false
  /\ (redirects s <= redirects (finish_upload fetched s))%nat.
Proof.
  unfold finish_upload. destruct fetched as [[[] d]|failure]; simpl; repeat split; lia.
Qed.

Lemma handle_settled (e : event) (q : session) : settled q -> settled (handle formatBytes e q).
Proof.
  intros Hq. pose proof Hq as (Hbtn & Hwait & Hspin).
  destruct e as [files| | |files| |fetched]; unfold handle.
  1-4: (match goal with |- settled (mkSession (listen _ ?e _) _) =>
          destruct (listen_keeps e (page q)) as (Kspin & _ & Kbtn);
          pose proof (listen_selected e (page q)) as Ksel
        end;
        split; [|split]; cbn [page waiting];
        [ intros Hen Hnone; destruct (Kbtn Hen Hnone) as [Hen' Hnone']; now apply Hbtn
        | intros Hw; apply Ksel; now apply Hwait
        | intros Hw; rewrite Kspin; now apply Hspin ]).
  - destruct (selectedFile (page q)) as [f|] eqn:Hfile; [|exact Hq].
    split; [|split]; cbn [page waiting begin_upload selectedFile uploadBtn_disabled];
      try discriminate; intros _; rewrite Hfile; discriminate.
  - destruct (waiting q) as [|others] eqn:Hw; [exact Hq|].
    destruct (finish_upload_keeps fetched (page q)) as (Ksel & Kspin & _).
    assert (Hfile : selectedFile (page q) <> None) by (apply Hwait; discriminate).
    split; [|split]; cbn [page waiting].
    + intros _. now rewrite Ksel.
    + intros _. now rewrite Ksel.
    + intros _. exact Kspin.
Qed.

Lemma handle_redirects (e : event) (q : session) :
  (redirects (page q) <= redirects (page (handle formatBytes e q)))%nat.
Proof.
  destruct e as [files| | |files| |fetched]; unfold handle.
  1-4: (match goal with |- context [listen _ ?e _] =>
          destruct (listen_keeps e (page q)) as (_ & Kred & _)
        end; cbn [page]; rewrite Kred; lia).
  - destruct (selectedFile (page q)); simpl; lia.
  - destruct (waiting q); [lia|]. cbn [page].
    apply (finish_upload_keeps fetched (page q)).
Qed.

Lemma handle_selected (e : event) (q : session) :
  selectedFile (page q) <> None -> selectedFile (page (handle formatBytes e q)) <> None.
Proof.
  intros Hfile. destruct e as [files| | |files| |fetched]; unfold handle.
  1-4: (cbn [page]; now apply listen_selected).
  - destruct (selectedFile (page q)) eqn:Hsel; [|congruence]. cbn [page begin_upload selectedFile].
    now rewrite Hsel.
  - destruct (waiting q); [assumption|]. cbn [page].
    now rewrite (proj1 (finish_upload_keeps fetched (page q))).
Qed.

(** X13: whatever happens on the upload page, in any order, other
    listeners running while a click waits for its response: the upload button
    is enabled only while a file is selected, a selected file is never
    unselected, the spinner is hidden whenever no click waits for a response,
    and redirects to the results are only ever added, provided the page
    starts that way. A click with a file selected shows the spinner and
    disables the button until the next listener runs. *)
Theorem upload_button_needs_a_selected_file (events : list event) (q : session) :
  (uploadBtn_disabled (page q) = false -> selectedFile (page q) <> None) ->
  (waiting q <> O -> selectedFile (page q) <> None) ->
  (waiting q = O -> spinner_show (page q) = false) ->
  let q' := run formatBytes events q in
  (uploadBtn_disabled (page q') = false -> selectedFile (page q') <> None)
  /\ (selectedFile (page q) <> None -> selectedFile (page q') <> None)
  /\ (waiting q' = O -> spinner_show (page q') = false)
  /\ (redirects (page q) <= redirects (page q'))%nat
  /\ (selectedFile (page q') <> None ->
      spinner_show (page (handle formatBytes Click q')) = true
      /\ uploadBtn_disabled (page (handle formatBytes Click q')) = true
      /\ waiting (handle formatBytes Click q') = S (waiting q')).
Proof.
  intros Hbtn Hwait Hspin. cbv zeta.
  assert (Hsettled : settled q) by now repeat split.
  clear Hbtn Hwait Hspin. revert q Hsettled.
  induction events as [|e events IH]; intros q Hsettled.
  - destruct Hsettled as (Hbtn & Hwait & Hspin). cbn [run fold_left].
    repeat split; try assumption; try lia;
      destruct (selectedFile (page q)) eqn:Hsel; try congruence; cbn [handle];
      rewrite Hsel; reflexivity.
  - cbn [run fold_left]. fold (run formatBytes events (handle formatBytes e q)).
    destruct (IH _ (handle_settled e q Hsettled)) as (Hb & Hf & Hs & Hr & Hc).
    split; [exact Hb|]. split; [|split; [exact Hs|split; [|exact Hc]]].
    + intros Hfile. apply Hf. now apply handle_selected.
    + pose proof (handle_redirects e q). lia.
Qed.

End HandlerFacts.

Lemma visit_ends_settled :
  (uploadBtn_disabled (page (run sample_formatBytes visit (mkSession idle 0))) = false ->
   selectedFile (page (run sample_formatBytes visit (mkSession idle 0))) <> None)
  /\ waiting (run sample_formatBytes visit (mkSession idle 0)) = O
  /\ spinner_show (page (run sample_formatBytes visit (mkSession idle 0))) = false
  /\ redirects (page (run sample_formatBytes visit (mkSession idle 0))) = 1%nat
  /\ spinner_show
       (page (run sample_formatBytes
                [DragOver; Drop [small_upload]; Click; Change [small_upload]]
                (mkSession idle 0))) = true.
Proof.
  assert (Hdone : waiting (run sample_formatBytes visit (mkSession idle 0)) = O)
    by (vm_compute; reflexivity).
  destruct (upload_button_needs_a_selected_file sample_formatBytes visit (mkSession idle 0))
    as (Hbtn & _ & Hspin & _ & _).
  - discriminate.
  - intros Hwait. now contradiction Hwait.
  - reflexivity.
  - split; [exact Hbtn|]. split; [exact Hdone|]. split; [exact (Hspin Hdone)|].
    split; vm_compute; reflexivity.
Defined.

(** X14: a click on the upload button, answered by the server, ends with
    the spinner hidden and tells the user what the server did: when the file
    was stored, the success message of the server followed by the note of the
    redirect, one redirect more and the button left disabled; when it was not,
    the error the server gave (or "Upload failed" for an empty one), no
    redirect and the button enabled again. *)
Theorem click_upload_reports_what_the_server_did (env : upload_env) (f : file) (s : ui) :
  selectedFile s = Some f ->
  let answer := post_upload env (Some f) in
  let s' := click_upload (Ok (fetched_from (fst answer))) s in
  spinner_show s' = false
  /\ (snd answer <> None ->
      message_text s'
      = "File uploaded successfully! Analysis will begin shortly. Redirecting to results..."
      /\ message_classes s' = ["message"; "success"; "show"]
      /\ redirects s' = S (redirects s)
      /\ uploadBtn_disabled s' = true)
  /\ (snd answer = None ->
      exists problem,
        body (fst answer) = Failed problem
        /\ message_text s' = or_else (Some problem) "Upload failed"
        /\ message_classes s' = ["message"; "error"; "show"]
        /\ redirects s' = redirects s
        /\ uploadBtn_disabled s' = false).
Proof.
  intros Hfile. cbv zeta. unfold click_upload. rewrite Hfile.
  unfold post_upload.
  destruct (upload_single (rule env) (Some f)) as [[g|]|problem]; cbn [fst snd].
  - cbv zeta. destruct (write env _ (buffer g)) as [|problem|problem]; cbn [fst snd].
    + repeat split; intros; congruence.
    + split; [reflexivity|]. split; [congruence|]. intros _. eexists. repeat split.
    + split; [reflexivity|]. split; [congruence|]. intros _. eexists. repeat split.
  - split; [reflexivity|]. split; [congruence|]. intros _. eexists. repeat split.
  - split; [reflexivity|]. split; [congruence|]. intros _. eexists. repeat split.
Qed.

Lemma chosen_file_is_reported_uploaded :
  selectedFile chosen = Some small_upload
  /\ message_text
       (click_upload
          (Ok (fetched_from (fst (post_upload quiet_env (Some small_upload))))) chosen)
     = "File uploaded successfully! Analysis will begin shortly. Redirecting to results...".
Proof.
  assert (Hfile : selectedFile chosen = Some small_upload) by reflexivity.
  split; [exact Hfile|].
  apply (proj1 (proj2 (click_upload_reports_what_the_server_did quiet_env small_upload chosen
                         Hfile))).
  vm_compute. discriminate.
Defined.

End UploadPageFacts.

(** ** The file filter and the case of a name *)

Module FilterFacts.
Import Js JsFacts NodePath Server Samples.

Lemma lower_char_class (c : ascii) :
  Ascii.eqb (lower_char c) "/" = Ascii.eqb c "/"
  /\ Ascii.eqb (lower_char c) "." = Ascii.eqb c ".".
Proof.
  destruct c as [[] [] [] [] [] [] [] []]; vm_compute; split; reflexivity.
Qed.

Section Relabel.
(** A relabelling of characters that keeps slashes and dots what they are. *)
Variable f : ascii -> ascii.
Hypothesis keeps_slash : forall c, Ascii.eqb (f c) "/" = Ascii.eqb c "/".
Hypothesis keeps_dot : forall c, Ascii.eqb (f c) "." = Ascii.eqb c ".".

Lemma charCodeAt_map (p : string) (i : nat) :
  (charCodeAt (map_chars f p) i =? CHAR_FORWARD_SLASH) = (charCodeAt p i =? CHAR_FORWARD_SLASH)
  /\ (charCodeAt (map_chars f p) i =? CHAR_DOT) = (charCodeAt p i =? CHAR_DOT).
Proof.
  unfold charCodeAt. rewrite map_chars_get.
  destruct (String.get i p) as [c|]; simpl; [|now split].
  change CHAR_FORWARD_SLASH with (Z.of_N (N_of_ascii "/")).
  change CHAR_DOT with (Z.of_N (N_of_ascii ".")).
  rewrite !NodePathFacts.code_is_char. now split.
Qed.

(** The scan reads of a character only whether it is a slash or a dot. *)
Lemma extname_scan_map (p : string) (n : nat) (st : scan) :
  extname_scan (map_chars f p) n st = extname_scan p n st.
Proof.
  revert st. induction n as [|i IH]; intros st; [reflexivity|].
  cbn [extname_scan]. destruct (charCodeAt_map p i) as [-> ->].
  destruct (charCodeAt p i =? CHAR_FORWARD_SLASH).
  - destruct (negb (matchedSlash st)); [reflexivity | apply IH].
  - apply IH.
Qed.

Lemma substring_map (a b : nat) (s : string) :
  String.substring a b (map_chars f s) = map_chars f (String.substring a b s).
Proof.
  revert a b. induction s as [|c s IH]; intros a b.
  - destruct a, b; reflexivity.
  - destruct a as [|a]; simpl.
    + destruct b as [|b]; simpl; [reflexivity | now rewrite IH].
    + apply IH.
Qed.

Lemma extname_map (p : string) : extname (map_chars f p) = map_chars f (extname p).
Proof.
  unfold extname. cbv zeta. rewrite map_chars_length, extname_scan_map.
  destruct (_ || _); [reflexivity|]. unfold slice. apply substring_map.
Qed.

End Relabel.

Lemma extname_toLowerCase (p : string) : extname (toLowerCase p) = toLowerCase (extname p).
Proof.
  unfold toLowerCase. apply extname_map; intros c; apply lower_char_class.
Qed.

(** X15: the file filter does not look at the case of a name: two files
    whose original names differ in case only are both accepted or both
    rejected. *)
Theorem fileFilter_ignores_the_case_of_the_name (f g : file) :
  toLowerCase (originalname f) = toLowerCase (originalname g) ->
  fileFilter f = fileFilter g.
Proof.
  intros Hsame. unfold fileFilter.
  rewrite <- !extname_toLowerCase, Hsame. reflexivity.
Qed.

Lemma fileFilter_treats_SONG_MP3_as_song_mp3 :
  fileFilter (mkFile "SONG.MP3" "audio/mpeg" []) = fileFilter (mkFile "song.mp3" "audio/mpeg" []).
Proof.
  apply fileFilter_ignores_the_case_of_the_name. vm_compute. reflexivity.
Defined.

End FilterFacts.
